(** * Enemy template resolution, modification merge and validation

    A shallow embedding of the template logic of the enemy creator tools:
    [UEnemyTemplate::ValidateTemplate], [UEnemyTemplate::ApplyToInstance],
    [UEnemyTemplate::GetInheritanceChain] (EnemyTemplate.cpp),
    [UEnemyConfiguration::ValidateConfiguration] (EnemyConfiguration.cpp) and
    [FEnemyTemplateValidationResult] (EnemyTemplateTypes.h).

    Templates are engine objects that point at each other through
    [ParentTemplate]; the object graph is a finite store from addresses to
    template objects, so that cyclic parent graphs can be written down.
    Functions whose C++ original recurses or loops without a syntactic bound
    take a [fuel] argument and return an [outcome]; running out of fuel is
    kept apart from a normal return and from a fault (a dangling pointer). *)

From Stdlib Require Import ZArith.
From Stdlib Require Import Floats.SpecFloat.
From stdpp Require Import base option list strings gmap.

Open Scope string_scope.
Open Scope list_scope.
Open Scope nat_scope.

(** ** Engine value types *)

(** [FName]: an interned name, kept as its rendering. [NAME_None] renders as
    ["None"], and that is what [IsNone] tests. Names are compared as
    written; the engine's case folding is left out. *)
Definition FName := string.
Definition NAME_None : FName := "None".
Definition FName_IsNone (n : FName) : bool := bool_decide (n = NAME_None).

(** C++ [float] is IEEE-754 binary32: 24 bits of precision, exponents up to
    128. Values are [spec_float]s and the operations are the specification
    operations at that format (round to nearest, ties to even). *)
Module Float32.
Definition prec : Z := 24.
Definition emax : Z := 128.
Definition t := spec_float.
Definition mul (x y : t) : t := SFmul prec emax x y.
Definition leb (x y : t) : bool := SFleb x y.
Definition zero : t := S754_zero false.
Definition of_Z (z : Z) : t := binary_normalize prec emax z 0 false.
End Float32.

(** [int32] values that end up in messages ([TArray::IndexOfByKey] results,
    [INDEX_NONE]). *)
Definition INDEX_NONE : Z := (-1)%Z.

(** [FText] is kept symbolic: a localised literal is its namespace, key and
    source string, and [FText::Format] keeps its pattern and its arguments,
    so that two messages are equal exactly when they were built the same
    way from the same values. *)
Unset Elimination Schemes.
Inductive FText : Type :=
| NSLOCTEXT (Namespace Key Source : string)
| FText_FromString (s : string)
| FText_FromName (n : FName)
| FText_AsNumber_int32 (i : Z)
| FText_AsNumber_float (f : Float32.t)
| FText_Format (Pattern : FText) (Args : list FText).
Set Elimination Schemes.

(** [FText::IsEmpty]: a literal or a converted string is empty when its
    source string is; a name, a number and a formatted message are taken
    to render to at least one character. *)
Definition FText_IsEmpty (t : FText) : bool :=
  match t with
  | NSLOCTEXT _ _ s | FText_FromString s => bool_decide (s = "")
  | _ => false
  end.

(** [TMap<K,V>]: the entries in iteration order. The engine keeps keys
    unique ([TMap_wf]); the loops below visit entries first to last. *)
Definition TMap (K V : Type) : Type := list (K * V).

Definition TMap_wf {K V} (m : TMap K V) : Prop := NoDup (m.*1).

Fixpoint TMap_Find {V} (m : TMap FName V) (k : FName) : option V :=
  match m with
  | [] => None
  | (k', v) :: m' => if bool_decide (k' = k) then Some v else TMap_Find m' k
  end.

Definition TMap_Contains {V} (m : TMap FName V) (k : FName) : bool :=
  match TMap_Find m k with Some _ => true | None => false end.

(** [TSoftObjectPtr<T>] / [TSoftClassPtr<T>]: the engine type is not part of
    the repository, so a soft reference is what the code observes of it:
    the answer of [IsValid()] and the pointer [Get()] hands out. The two
    are independent fields because ValidateConfiguration tests them one
    after the other and reports them differently. *)
Record TSoftObjectPtr (T : Type) : Type := MkSoftObjectPtr {
  IsValid : bool;
  Get : option T;
}.
Arguments MkSoftObjectPtr {T} _ _.
Arguments IsValid {T} _.
Arguments Get {T} _.

(** Assets of the engine (meshes, behaviour trees, classes, ...) are opaque
    identifiers. *)
Definition Asset := string.

Definition FGameplayTagContainer := list FName.

Record FVector := MkVector { X : Float32.t; Y : Float32.t; Z_ : Float32.t }.
Record FLinearColor := MkLinearColor {
  R : Float32.t; G : Float32.t; B : Float32.t; A : Float32.t }.

(** ** EnemyTemplateTypes.h *)

Record FEnemyBaseStats := MkBaseStats {
  Health : Float32.t;
  Damage : Float32.t;
  Speed : Float32.t;
  AttackSpeed : Float32.t;
  Defense : Float32.t;
  CriticalChance : Float32.t;
  CriticalMultiplier : Float32.t;
}.

(** The header of the repository lists every field below except
    [AbilityClass], which EnemyTemplate.cpp and EnemyCreatorTool.cpp read
    and write. *)
Record FEnemyAbilityDefinition := MkAbility {
  AbilityName : FName;
  AbilityDisplayName : FText;
  AbilityDescription : FText;
  AbilityTags : FGameplayTagContainer;
  CooldownTime : Float32.t;
  Range : Float32.t;
  Cost : Float32.t;
  bIsPassive : bool;
  AbilityClass : TSoftObjectPtr Asset;
  AbilityMontage : TSoftObjectPtr Asset;
  AbilityEffects : list (TSoftObjectPtr Asset);
}.

Record FEnemyAIConfig := MkAIConfig {
  BehaviorTree : TSoftObjectPtr Asset;
  Blackboard : TSoftObjectPtr Asset;
  AggressionLevel : Float32.t;
  PreferredRange : Float32.t;
  bUseCover : bool;
  bCoordinateWithAllies : bool;
  BehaviorParameters : TMap FName Float32.t;
  PersonalityTags : FGameplayTagContainer;
}.

Record FEnemyVisualCustomization := MkVisuals {
  SkeletalMesh : TSoftObjectPtr Asset;
  AnimationBlueprint : TSoftObjectPtr Asset;
  Scale : FVector;
  ColorTint : FLinearColor;
  ScalarParameters : TMap FName Float32.t;
  VectorParameters : TMap FName FLinearColor;
  TextureParameters : TMap FName (TSoftObjectPtr Asset);
  MaterialOverrides : list (Z * TSoftObjectPtr Asset);
}.

Record FEnemyTemplateModification := MkModification {
  StatMultipliers : TMap FName Float32.t;
  ModifiedAbilities : TMap FName FEnemyAbilityDefinition;
  AIModifications : FEnemyAIConfig;
  VisualModifications : FEnemyVisualCustomization;
  AdditionalTags : FGameplayTagContainer;
}.

Record FEnemyTemplateValidationResult := MkResult {
  bIsValid : bool;
  ValidationErrors : list FText;
  ValidationWarnings : list FText;
}.

(** A default-constructed result: [bIsValid = false], both arrays empty. *)
Definition FEnemyTemplateValidationResult_default : FEnemyTemplateValidationResult :=
  MkResult false [] [].

Definition AddError (r : FEnemyTemplateValidationResult) (Error : FText)
  : FEnemyTemplateValidationResult :=
  MkResult false (ValidationErrors r ++ [Error]) (ValidationWarnings r).

Definition AddWarning (r : FEnemyTemplateValidationResult) (Warning : FText)
  : FEnemyTemplateValidationResult :=
  MkResult (bIsValid r) (ValidationErrors r) (ValidationWarnings r ++ [Warning]).

Definition Clear (r : FEnemyTemplateValidationResult) : FEnemyTemplateValidationResult :=
  MkResult true [] [].

(** ** EnemyTemplate.cpp: the template object and the object store *)

(** A [UEnemyTemplate*] is [Some] address or [None] for [nullptr]. *)
Definition TemplatePtr := positive.

(** The members EnemyTemplate.cpp uses. [ParentTemplate] is tested and
    dereferenced there as a plain pointer. The last two members are the
    [mutable] cache of [GetInheritanceChain]. *)
Record UEnemyTemplate := MkTemplate {
  TemplateName : FName;
  DisplayName : FText;
  Description : FText;
  ParentTemplate : option TemplatePtr;
  TemplateTags : FGameplayTagContainer;
  BaseStats : FEnemyBaseStats;
  AIConfig : FEnemyAIConfig;
  VisualCustomization : FEnemyVisualCustomization;
  Abilities : list FEnemyAbilityDefinition;
  CachedInheritanceChain : list TemplatePtr;
  bNeedsInheritanceChainUpdate : bool;
}.

Abbreviation Heap := (gmap TemplatePtr UEnemyTemplate).

(** Every parent pointer stored in the heap points at a live object. *)
Definition heap_closed (h : Heap) : Prop :=
  ∀ a T p, h !! a = Some T → ParentTemplate T = Some p → is_Some (h !! p).

(** How a call ends: a normal return, a dereference of a pointer with no
    object behind it, or an exhausted step budget. *)
Inductive outcome (A : Type) : Type :=
| Returns (a : A)
| Fault
| OutOfFuel.
Arguments Returns {A} a.
Arguments Fault {A}.
Arguments OutOfFuel {A}.

#[global] Instance outcome_ret : MRet outcome := fun A a => Returns a.

#[global] Instance outcome_bind : MBind outcome := fun A B k m =>
  match m with
  | Returns a => k a
  | Fault => Fault
  | OutOfFuel => OutOfFuel
  end.

Definition deref (h : Heap) (p : TemplatePtr) : outcome UEnemyTemplate :=
  match h !! p with
  | Some T => Returns T
  | None => Fault
  end.

(** What EnemyTemplate.cpp calls but the repository does not define:
    [GetStatValuePtr], which resolves a stat name to a [float*] into the
    stats it is given (a pointer to one of the seven fields, or [nullptr]),
    and the [operator==] on ability definitions that
    [TArray::IndexOfByKey] compares with. *)
Inductive EStatField :=
| StatHealth | StatDamage | StatSpeed | StatAttackSpeed | StatDefense
| StatCriticalChance | StatCriticalMultiplier.

Class Externals := {
  GetStatValuePtr : FName → option EStatField;
  AbilityDefinition_eq : FEnemyAbilityDefinition → FEnemyAbilityDefinition → bool;
}.

(** Reading and writing through a [float*] into a stats record. *)
Definition stat_read (f : EStatField) (s : FEnemyBaseStats) : Float32.t :=
  match f with
  | StatHealth => Health s
  | StatDamage => Damage s
  | StatSpeed => Speed s
  | StatAttackSpeed => AttackSpeed s
  | StatDefense => Defense s
  | StatCriticalChance => CriticalChance s
  | StatCriticalMultiplier => CriticalMultiplier s
  end.

Definition stat_write (f : EStatField) (v : Float32.t) (s : FEnemyBaseStats)
  : FEnemyBaseStats :=
  match f with
  | StatHealth =>
      MkBaseStats v (Damage s) (Speed s) (AttackSpeed s) (Defense s)
        (CriticalChance s) (CriticalMultiplier s)
  | StatDamage =>
      MkBaseStats (Health s) v (Speed s) (AttackSpeed s) (Defense s)
        (CriticalChance s) (CriticalMultiplier s)
  | StatSpeed =>
      MkBaseStats (Health s) (Damage s) v (AttackSpeed s) (Defense s)
        (CriticalChance s) (CriticalMultiplier s)
  | StatAttackSpeed =>
      MkBaseStats (Health s) (Damage s) (Speed s) v (Defense s)
        (CriticalChance s) (CriticalMultiplier s)
  | StatDefense =>
      MkBaseStats (Health s) (Damage s) (Speed s) (AttackSpeed s) v
        (CriticalChance s) (CriticalMultiplier s)
  | StatCriticalChance =>
      MkBaseStats (Health s) (Damage s) (Speed s) (AttackSpeed s) (Defense s)
        v (CriticalMultiplier s)
  | StatCriticalMultiplier =>
      MkBaseStats (Health s) (Damage s) (Speed s) (AttackSpeed s) (Defense s)
        (CriticalChance s) v
  end.

(** [TArray::IndexOfByKey]: the index of the first element equal to the
    key, [INDEX_NONE] when there is none. *)
Fixpoint IndexOfByKey_from `{Externals} (i : Z) (l : list FEnemyAbilityDefinition)
    (Key : FEnemyAbilityDefinition) : Z :=
  match l with
  | [] => INDEX_NONE
  | x :: l' =>
      if AbilityDefinition_eq x Key then i else IndexOfByKey_from (i + 1)%Z l' Key
  end.

Definition IndexOfByKey `{Externals} (l : list FEnemyAbilityDefinition)
    (Key : FEnemyAbilityDefinition) : Z :=
  IndexOfByKey_from 0%Z l Key.

(** *** Validation *)

Definition ValidateVisualAssets (this : UEnemyTemplate)
    (OutResult : FEnemyTemplateValidationResult)
  : bool * FEnemyTemplateValidationResult :=
  if negb (IsValid (SkeletalMesh (VisualCustomization this))) then
    (false,
     AddError OutResult (NSLOCTEXT "EnemyCreator" "NoSkeletalMesh" "Skeletal mesh is required"))
  else
    let OutResult :=
      if negb (IsValid (AnimationBlueprint (VisualCustomization this))) then
        AddWarning OutResult
          (NSLOCTEXT "EnemyCreator" "NoAnimBP" "No animation blueprint specified")
      else OutResult in
    (true, OutResult).

Definition ValidateAIConfiguration (this : UEnemyTemplate)
    (OutResult : FEnemyTemplateValidationResult)
  : bool * FEnemyTemplateValidationResult :=
  if negb (IsValid (BehaviorTree (AIConfig this))) then
    (false,
     AddError OutResult (NSLOCTEXT "EnemyCreator" "NoBehaviorTree" "Behavior tree is required"))
  else if negb (IsValid (Blackboard (AIConfig this))) then
    (false,
     AddError OutResult (NSLOCTEXT "EnemyCreator" "NoBlackboard" "Blackboard is required"))
  else (true, OutResult).

(** One iteration of the loop of [ValidateAbilities]; the state is the
    local [bIsValid] and the result under construction. *)
Definition ValidateAbilities_body `{Externals} (this : UEnemyTemplate)
    (st : bool * FEnemyTemplateValidationResult) (Ability : FEnemyAbilityDefinition)
  : bool * FEnemyTemplateValidationResult :=
  let st :=
    if FName_IsNone (AbilityName Ability) then
      (false,
       AddError st.2
         (FText_Format
            (NSLOCTEXT "EnemyCreator" "NoAbilityName"
               "Ability name is required for ability at index {0}")
            [FText_AsNumber_int32 (IndexOfByKey (Abilities this) Ability)]))
    else st in
  if negb (IsValid (AbilityClass Ability)) then
    (false,
     AddError st.2
       (FText_Format
          (NSLOCTEXT "EnemyCreator" "NoAbilityClass"
             "Ability class is required for ability '{0}'")
          [FText_FromName (AbilityName Ability)]))
  else st.

Definition ValidateAbilities `{Externals} (this : UEnemyTemplate)
    (OutResult : FEnemyTemplateValidationResult)
  : bool * FEnemyTemplateValidationResult :=
  fold_left (ValidateAbilities_body this) (Abilities this) (true, OutResult).

(** The identity checks at the head of [ValidateTemplate]. *)
Definition ValidateIdentity (this : UEnemyTemplate)
    (OutResult : FEnemyTemplateValidationResult) : FEnemyTemplateValidationResult :=
  let OutResult :=
    if FName_IsNone (TemplateName this) then
      AddError OutResult
        (NSLOCTEXT "EnemyCreator" "NoTemplateName" "Template name is required")
    else OutResult in
  if FText_IsEmpty (DisplayName this) then
    AddWarning OutResult (NSLOCTEXT "EnemyCreator" "NoDisplayName" "Display name is empty")
  else OutResult.

(** What [ValidateTemplate] does with the parent's verdict. *)
Definition MergeParentResult (Parent : UEnemyTemplate)
    (ParentOk : bool) (ParentResult OutResult : FEnemyTemplateValidationResult)
  : FEnemyTemplateValidationResult :=
  if negb ParentOk then
    let OutResult :=
      AddError OutResult
        (FText_Format
           (NSLOCTEXT "EnemyCreator" "InvalidParentTemplate"
              "Parent template '{0}' is invalid")
           [FText_FromString (TemplateName Parent)]) in
    MkResult (bIsValid OutResult)
      (ValidationErrors OutResult ++ ValidationErrors ParentResult)
      (ValidationWarnings OutResult)
  else OutResult.

(** The three checks after the parent step, each returning [false] at once
    when it fails, and the final [return OutResult.bIsValid]. *)
Definition ValidateLocal `{Externals} (this : UEnemyTemplate)
    (OutResult : FEnemyTemplateValidationResult)
  : bool * FEnemyTemplateValidationResult :=
  let '(ok, OutResult) := ValidateVisualAssets this OutResult in
  if negb ok then (false, OutResult) else
  let '(ok, OutResult) := ValidateAIConfiguration this OutResult in
  if negb ok then (false, OutResult) else
  let '(ok, OutResult) := ValidateAbilities this OutResult in
  if negb ok then (false, OutResult) else
  (bIsValid OutResult, OutResult).

(** [UEnemyTemplate::ValidateTemplate]. One unit of fuel is one activation
    of the method; the recursive call on the parent gets what is left. *)
Fixpoint ValidateTemplate `{Externals} (fuel : nat) (h : Heap) (this : TemplatePtr)
    (OutResult : FEnemyTemplateValidationResult)
  : outcome (bool * FEnemyTemplateValidationResult) :=
  match fuel with
  | O => OutOfFuel
  | S fuel =>
      T ← deref h this;
      let OutResult := Clear OutResult in
      let OutResult := ValidateIdentity T OutResult in
      OutResult ←
        match ParentTemplate T with
        | Some p =>
            let ParentResult := FEnemyTemplateValidationResult_default in
            '(ParentOk, ParentResult) ← ValidateTemplate fuel h p ParentResult;
            Parent ← deref h p;
            mret (MergeParentResult Parent ParentOk ParentResult OutResult)
        | None => mret OutResult
        end;
      mret (ValidateLocal T OutResult)
  end.

(** *** Applying a template to an instance *)

(** The character handed to [ApplyToInstance], as far as the method looks at
    it: whether [FindComponentByClass<UAbilitySystemComponent>] finds a
    component. *)
Record ACharacter := MkCharacter {
  HasAbilitySystemComponent : bool;
}.

(** What one call of [ApplyToInstance] settles on: the local [FinalStats],
    the records passed to [ApplyVisualCustomization] and
    [ApplyAIConfiguration], and the arguments of the calls to
    [ApplyAbility], in call order. *)
Record FAppliedConfiguration := MkApplied {
  FinalStats : FEnemyBaseStats;
  FinalVisuals : FEnemyVisualCustomization;
  FinalAIConfig : FEnemyAIConfig;
  AppliedAbilities : list FEnemyAbilityDefinition;
}.

(** The body of the loop over [Modification->StatMultipliers]. *)
Definition ApplyStatMultiplier `{Externals} (FinalStats : FEnemyBaseStats)
    (StatMod : FName * Float32.t) : FEnemyBaseStats :=
  match GetStatValuePtr StatMod.1 with
  | Some StatValue =>
      stat_write StatValue (Float32.mul (stat_read StatValue FinalStats) StatMod.2)
        FinalStats
  | None => FinalStats
  end.

(** The body of the loop over [Abilities]: the definition that goes to
    [ApplyAbility]. [ModifiedAbilities[Name]] is only evaluated after
    [Contains(Name)], so the lookup has a value. *)
Definition SelectAbility (Modification : option FEnemyTemplateModification)
    (Ability : FEnemyAbilityDefinition) : FEnemyAbilityDefinition :=
  match Modification with
  | Some M =>
      if TMap_Contains (ModifiedAbilities M) (AbilityName Ability) then
        default Ability (TMap_Find (ModifiedAbilities M) (AbilityName Ability))
      else Ability
  | None => Ability
  end.

(** [UEnemyTemplate::ApplyToInstance]: [None] is the [return false] on a null
    instance, [Some] carries what the call applied before [return true]. *)
Definition ApplyToInstance `{Externals} (this : UEnemyTemplate)
    (EnemyInstance : option ACharacter)
    (Modification : option FEnemyTemplateModification)
  : option FAppliedConfiguration :=
  match EnemyInstance with
  | None => None
  | Some Instance =>
      let FinalStats := BaseStats this in
      let FinalStats :=
        match Modification with
        | Some M => fold_left ApplyStatMultiplier (StatMultipliers M) FinalStats
        | None => FinalStats
        end in
      let FinalVisuals := VisualCustomization this in
      let FinalVisuals :=
        match Modification with
        | Some M => VisualModifications M
        | None => FinalVisuals
        end in
      let FinalAIConfig := AIConfig this in
      let FinalAIConfig :=
        match Modification with
        | Some M => AIModifications M
        | None => FinalAIConfig
        end in
      let Applied :=
        if HasAbilitySystemComponent Instance then
          map (SelectAbility Modification) (Abilities this)
        else [] in
      Some (MkApplied FinalStats FinalVisuals FinalAIConfig Applied)
  end.

(** *** The inheritance chain *)

(** [TArray::Contains] on the chain, asked about a possibly null pointer;
    the chain only ever receives non-null pointers. *)
Definition Chain_Contains (chain : list TemplatePtr) (p : option TemplatePtr) : bool :=
  match p with
  | Some a => bool_decide (a ∈ chain)
  | None => false
  end.

(** The [while (Current)] loop; one unit of fuel is one iteration. *)
Fixpoint InheritanceChain_loop (fuel : nat) (h : Heap)
    (Chain : list TemplatePtr) (Current : option TemplatePtr)
  : outcome (list TemplatePtr) :=
  match Current with
  | None => Returns Chain
  | Some c =>
      match fuel with
      | O => OutOfFuel
      | S fuel =>
          let Chain := Chain ++ [c] in
          T ← deref h c;
          let Current := ParentTemplate T in
          if Chain_Contains Chain Current then Returns Chain
          else InheritanceChain_loop fuel h Chain Current
      end
  end.

(** [UEnemyTemplate::GetInheritanceChain]: the chain returned and the heap
    with the cache members of [this] updated. *)
Definition GetInheritanceChain (fuel : nat) (h : Heap) (this : TemplatePtr)
  : outcome (list TemplatePtr * Heap) :=
  T ← deref h this;
  if bNeedsInheritanceChainUpdate T then
    Chain ← InheritanceChain_loop fuel h [] (Some this);
    let T' :=
      MkTemplate (TemplateName T) (DisplayName T) (Description T) (ParentTemplate T)
        (TemplateTags T) (BaseStats T) (AIConfig T) (VisualCustomization T)
        (Abilities T) Chain false in
    mret (Chain, <[this := T']> h)
  else mret (CachedInheritanceChain T, h).

(** ** EnemyConfiguration.cpp *)

Record UEnemyConfiguration := MkConfiguration {
  BaseTemplate : TSoftObjectPtr TemplatePtr;
  Modifications : FEnemyTemplateModification;
}.

(** The loop over [Modifications.StatMultipliers]: it returns [false] from
    inside the loop at the first value [<= 0.0f]. *)
Fixpoint ValidateStatMultipliers (l : TMap FName Float32.t)
    (OutResult : FEnemyTemplateValidationResult)
  : bool * FEnemyTemplateValidationResult :=
  match l with
  | [] => (true, OutResult)
  | StatMod :: l =>
      if Float32.leb StatMod.2 Float32.zero then
        (false,
         AddError OutResult
           (FText_Format
              (NSLOCTEXT "EnemyCreator" "InvalidStatMultiplier"
                 "Invalid multiplier value {0} for stat {1}")
              [FText_AsNumber_float StatMod.2; FText_FromName StatMod.1]))
      else ValidateStatMultipliers l OutResult
  end.

(** The inner loop: is there a template ability with this name? *)
Definition AbilityFound (TemplateAbilities : list FEnemyAbilityDefinition)
    (Key : FName) : bool :=
  existsb (fun TemplateAbility => bool_decide (AbilityName TemplateAbility = Key))
    TemplateAbilities.

(** The loop over [Modifications.ModifiedAbilities], again leaving at the
    first entry that fails. *)
Fixpoint ValidateModifiedAbilities (Template : UEnemyTemplate)
    (l : TMap FName FEnemyAbilityDefinition)
    (OutResult : FEnemyTemplateValidationResult)
  : bool * FEnemyTemplateValidationResult :=
  match l with
  | [] => (true, OutResult)
  | AbilityMod :: l =>
      if FName_IsNone AbilityMod.1 then
        (false,
         AddError OutResult
           (NSLOCTEXT "EnemyCreator" "InvalidAbilityModification"
              "Invalid ability modification key"))
      else if negb (AbilityFound (Abilities Template) AbilityMod.1) then
        (false,
         AddError OutResult
           (FText_Format
              (NSLOCTEXT "EnemyCreator" "UnknownAbilityModification"
                 "Modification targets unknown ability {0}")
              [FText_FromName AbilityMod.1]))
      else ValidateModifiedAbilities Template l OutResult
  end.

(** [UEnemyConfiguration::ValidateConfiguration]. The template object is
    read where the method first needs it after the template validation; by
    then the pointer has been dereferenced once already. *)
Definition ValidateConfiguration `{Externals} (fuel : nat) (h : Heap)
    (this : UEnemyConfiguration) (OutResult : FEnemyTemplateValidationResult)
  : outcome (bool * FEnemyTemplateValidationResult) :=
  let OutResult := Clear OutResult in
  if negb (IsValid (BaseTemplate this)) then
    mret (false,
          AddError OutResult
            (NSLOCTEXT "EnemyCreator" "NoBaseTemplate" "No base template specified"))
  else
    match Get (BaseTemplate this) with
    | None =>
        mret (false,
              AddError OutResult
                (NSLOCTEXT "EnemyCreator" "InvalidBaseTemplate"
                   "Base template reference is invalid"))
    | Some Template =>
        '(ok, OutResult) ← ValidateTemplate fuel h Template OutResult;
        if negb ok then mret (false, OutResult) else
        T ← deref h Template;
        let '(ok, OutResult) := ValidateStatMultipliers (StatMultipliers (Modifications this)) OutResult in
        if negb ok then mret (false, OutResult) else
        let '(ok, OutResult) := ValidateModifiedAbilities T (ModifiedAbilities (Modifications this)) OutResult in
        if negb ok then mret (false, OutResult) else
        mret (true, OutResult)
    end.

(** ** The parent graph *)

(** [b] is the parent of [a]. *)
Definition parent_of (h : Heap) (a b : TemplatePtr) : Prop :=
  ∃ T, h !! a = Some T ∧ ParentTemplate T = Some b.

(** [b] is reached from [a] by following parent pointers (zero or more). *)
Definition reaches (h : Heap) : relation TemplatePtr := rtc (parent_of h).

(** The parent chain that starts at [a] ends at a root after [n] steps: it
    is finite and acyclic. *)
Inductive parent_chain_ends (h : Heap) : TemplatePtr → nat → Prop :=
| chain_root a T :
    h !! a = Some T → ParentTemplate T = None → parent_chain_ends h a 0
| chain_step a T p n :
    h !! a = Some T → ParentTemplate T = Some p →
    parent_chain_ends h p n → parent_chain_ends h a (S n).

(** ** The values the header gives to default-constructed structs *)

Definition SoftNull {T} : TSoftObjectPtr T := MkSoftObjectPtr false None.
Definition SoftLoaded {T} (a : T) : TSoftObjectPtr T := MkSoftObjectPtr true (Some a).

Definition FText_Empty : FText := FText_FromString "".

Definition FEnemyBaseStats_default : FEnemyBaseStats :=
  MkBaseStats (Float32.of_Z 100) (Float32.of_Z 20) (Float32.of_Z 300) (Float32.of_Z 1)
    (Float32.of_Z 10)
    (SFdiv Float32.prec Float32.emax (Float32.of_Z 5) (Float32.of_Z 100))
    (Float32.of_Z 2).

Definition FEnemyAbilityDefinition_default : FEnemyAbilityDefinition :=
  MkAbility NAME_None FText_Empty FText_Empty [] Float32.zero (Float32.of_Z 100)
    Float32.zero false SoftNull SoftNull [].

Definition FEnemyAIConfig_default : FEnemyAIConfig :=
  MkAIConfig SoftNull SoftNull
    (SFdiv Float32.prec Float32.emax (Float32.of_Z 1) (Float32.of_Z 2))
    (Float32.of_Z 300) false false [] [].

Definition FEnemyVisualCustomization_default : FEnemyVisualCustomization :=
  MkVisuals SoftNull SoftNull
    (MkVector (Float32.of_Z 1) (Float32.of_Z 1) (Float32.of_Z 1))
    (MkLinearColor (Float32.of_Z 1) (Float32.of_Z 1) (Float32.of_Z 1) (Float32.of_Z 1))
    [] [] [] [].

(** The state the constructor [UEnemyTemplate::UEnemyTemplate] leaves. *)
Definition UEnemyTemplate_new : UEnemyTemplate :=
  MkTemplate NAME_None FText_Empty FText_Empty None [] FEnemyBaseStats_default
    FEnemyAIConfig_default FEnemyVisualCustomization_default [] [] true.

(** Modelled from the spec: [GetStatValuePtr], declared and defined outside
    the files of the repository; "a resolver lookup by name against a fixed
    field set", the seven fields of the base stats, anything else resolving
    to no field. *)
Definition GetStatValuePtr_by_field_name (StatName : FName) : option EStatField :=
  if bool_decide (StatName = "Health") then Some StatHealth
  else if bool_decide (StatName = "Damage") then Some StatDamage
  else if bool_decide (StatName = "Speed") then Some StatSpeed
  else if bool_decide (StatName = "AttackSpeed") then Some StatAttackSpeed
  else if bool_decide (StatName = "Defense") then Some StatDefense
  else if bool_decide (StatName = "CriticalChance") then Some StatCriticalChance
  else if bool_decide (StatName = "CriticalMultiplier") then Some StatCriticalMultiplier
  else None.

(** Modelled from the spec: the [operator==] of ability definitions, absent
    from the repository; an ability definition has a "unique name (key)",
    so two definitions are the same entry when their names agree. *)
Definition AbilityDefinition_eq_by_name (a b : FEnemyAbilityDefinition) : bool :=
  bool_decide (AbilityName a = AbilityName b).

Definition Externals_by_name : Externals :=
  {| GetStatValuePtr := GetStatValuePtr_by_field_name;
     AbilityDefinition_eq := AbilityDefinition_eq_by_name |}.

(** ** The messages, by the key they are localised under *)

Module Msg.
Definition NoTemplateName : FText :=
  NSLOCTEXT "EnemyCreator" "NoTemplateName" "Template name is required".
Definition NoSkeletalMesh : FText :=
  NSLOCTEXT "EnemyCreator" "NoSkeletalMesh" "Skeletal mesh is required".
Definition NoAnimBP : FText :=
  NSLOCTEXT "EnemyCreator" "NoAnimBP" "No animation blueprint specified".
Definition NoBehaviorTree : FText :=
  NSLOCTEXT "EnemyCreator" "NoBehaviorTree" "Behavior tree is required".
Definition NoBlackboard : FText :=
  NSLOCTEXT "EnemyCreator" "NoBlackboard" "Blackboard is required".
Definition InvalidParentTemplate (ParentName : string) : FText :=
  FText_Format
    (NSLOCTEXT "EnemyCreator" "InvalidParentTemplate" "Parent template '{0}' is invalid")
    [FText_FromString ParentName].
Definition NoBaseTemplate : FText :=
  NSLOCTEXT "EnemyCreator" "NoBaseTemplate" "No base template specified".
Definition InvalidBaseTemplate : FText :=
  NSLOCTEXT "EnemyCreator" "InvalidBaseTemplate" "Base template reference is invalid".
Definition InvalidStatMultiplier (Value : Float32.t) (Key : FName) : FText :=
  FText_Format
    (NSLOCTEXT "EnemyCreator" "InvalidStatMultiplier"
       "Invalid multiplier value {0} for stat {1}")
    [FText_AsNumber_float Value; FText_FromName Key].
Definition InvalidAbilityModification : FText :=
  NSLOCTEXT "EnemyCreator" "InvalidAbilityModification" "Invalid ability modification key".
Definition UnknownAbilityModification (Key : FName) : FText :=
  FText_Format
    (NSLOCTEXT "EnemyCreator" "UnknownAbilityModification"
       "Modification targets unknown ability {0}")
    [FText_FromName Key].
End Msg.

(** The errors that the AI check and the ability check add. *)
Definition is_AI_or_ability_error (e : FText) : Prop :=
  e = Msg.NoBehaviorTree ∨ e = Msg.NoBlackboard ∨
  ∃ Pattern Args Key,
    e = FText_Format (NSLOCTEXT "EnemyCreator" Key Pattern) Args ∧
    (Key = "NoAbilityName" ∨ Key = "NoAbilityClass").

(** The entries the loops of [ValidateConfiguration] stop at. *)
Definition bad_multiplier (StatMod : FName * Float32.t) : bool :=
  Float32.leb StatMod.2 Float32.zero.

Definition bad_ability_key (Template : UEnemyTemplate)
    (AbilityMod : FName * FEnemyAbilityDefinition) : bool :=
  FName_IsNone AbilityMod.1 || negb (AbilityFound (Abilities Template) AbilityMod.1).

Definition ability_key_error (AbilityMod : FName * FEnemyAbilityDefinition) : FText :=
  if FName_IsNone AbilityMod.1 then Msg.InvalidAbilityModification
  else Msg.UnknownAbilityModification AbilityMod.1.

(** ** Sample objects used to run the definitions *)

Module Sample.

Definition Mesh : TSoftObjectPtr Asset := SoftLoaded "/Game/Enemies/SK_Goblin".
Definition AnimBP : TSoftObjectPtr Asset := SoftLoaded "/Game/Enemies/ABP_Goblin".
Definition BT : TSoftObjectPtr Asset := SoftLoaded "/Game/AI/BT_Melee".
Definition BB : TSoftObjectPtr Asset := SoftLoaded "/Game/AI/BB_Enemy".
Definition GA : TSoftObjectPtr Asset := SoftLoaded "/Game/Abilities/GA_BasicAttack".

Definition Visuals : FEnemyVisualCustomization :=
  MkVisuals Mesh AnimBP (MkVector (Float32.of_Z 1) (Float32.of_Z 1) (Float32.of_Z 1))
    (MkLinearColor (Float32.of_Z 1) (Float32.of_Z 1) (Float32.of_Z 1) (Float32.of_Z 1))
    [] [] [] [].

Definition NoMeshVisuals : FEnemyVisualCustomization :=
  MkVisuals SoftNull AnimBP (MkVector (Float32.of_Z 1) (Float32.of_Z 1) (Float32.of_Z 1))
    (MkLinearColor (Float32.of_Z 1) (Float32.of_Z 1) (Float32.of_Z 1) (Float32.of_Z 1))
    [] [] [] [].

Definition AI : FEnemyAIConfig :=
  MkAIConfig BT BB Float32.zero (Float32.of_Z 300) false false [] [].

Definition NoBehaviorTreeAI : FEnemyAIConfig :=
  MkAIConfig SoftNull BB Float32.zero (Float32.of_Z 300) false false [] [].

Definition BasicAttack : FEnemyAbilityDefinition :=
  MkAbility "BasicAttack" (FText_FromString "Basic Attack") FText_Empty []
    Float32.zero (Float32.of_Z 200) Float32.zero false GA SoftNull [].

Definition Fireball : FEnemyAbilityDefinition :=
  MkAbility "Fireball" (FText_FromString "Fireball") FText_Empty []
    (Float32.of_Z 5) (Float32.of_Z 800) (Float32.of_Z 30) false
    (SoftLoaded "/Game/Abilities/GA_Fireball") SoftNull [].

Definition HeavyAttack : FEnemyAbilityDefinition :=
  MkAbility "BasicAttack" (FText_FromString "Heavy Attack") FText_Empty []
    (Float32.of_Z 2) (Float32.of_Z 250) Float32.zero false GA SoftNull [].

(** A complete template with one ability and no parent. *)
Definition Goblin : UEnemyTemplate :=
  MkTemplate "Goblin" (FText_FromString "Goblin") FText_Empty None []
    FEnemyBaseStats_default AI Visuals [BasicAttack] [] true.

(** A named template whose AI configuration lacks the behaviour tree. *)
Definition Brute : UEnemyTemplate :=
  MkTemplate "Brute" (FText_FromString "Brute") FText_Empty None []
    FEnemyBaseStats_default NoBehaviorTreeAI Visuals [] [] true.

(** A named child of the template at address 1, without a skeletal mesh. *)
Definition Ghost : UEnemyTemplate :=
  MkTemplate "Ghost" (FText_FromString "Ghost") FText_Empty (Some 1%positive) []
    FEnemyBaseStats_default AI NoMeshVisuals [BasicAttack] [] true.

(** A template that has neither a name nor a skeletal mesh. *)
Definition Nameless : UEnemyTemplate :=
  MkTemplate NAME_None (FText_FromString "Unnamed") FText_Empty None []
    FEnemyBaseStats_default AI NoMeshVisuals [] [] true.

Definition with_parent (T : UEnemyTemplate) (p : option TemplatePtr) : UEnemyTemplate :=
  MkTemplate (TemplateName T) (DisplayName T) (Description T) p (TemplateTags T)
    (BaseStats T) (AIConfig T) (VisualCustomization T) (Abilities T)
    (CachedInheritanceChain T) (bNeedsInheritanceChainUpdate T).

(** One root. *)
Definition heap_goblin : Heap := {[ 1%positive := Goblin ]}.

(** [Ghost] (address 2) under the invalid [Brute] (address 1). *)
Definition heap_ghost : Heap := <[ 2%positive := Ghost ]> {[ 1%positive := Brute ]}.

Definition heap_nameless : Heap := {[ 1%positive := Nameless ]}.

(** A cycle: the template at 1 has parent 2, the template at 2 has parent 1. *)
Definition heap_cycle : Heap :=
  <[ 2%positive := with_parent Goblin (Some 1%positive) ]>
    {[ 1%positive := with_parent Goblin (Some 2%positive) ]}.

(** A chain of three: 3 under 2 under 1. *)
Definition heap_line : Heap :=
  <[ 3%positive := with_parent Goblin (Some 2%positive) ]>
    (<[ 2%positive := with_parent Goblin (Some 1%positive) ]>
       {[ 1%positive := Goblin ]}).

Definition Modification_of (Stats : TMap FName Float32.t)
    (Abils : TMap FName FEnemyAbilityDefinition) : FEnemyTemplateModification :=
  MkModification Stats Abils FEnemyAIConfig_default FEnemyVisualCustomization_default [].

Definition Configuration_of (Stats : TMap FName Float32.t)
    (Abils : TMap FName FEnemyAbilityDefinition) : UEnemyConfiguration :=
  MkConfiguration (SoftLoaded 1%positive) (Modification_of Stats Abils).

Definition Instance : ACharacter := MkCharacter true.

(** What validating [Ghost] in [heap_ghost] leaves in [OutResult]. *)
Definition GhostResult : FEnemyTemplateValidationResult :=
  MkResult false
    [Msg.InvalidParentTemplate "Brute"; Msg.NoBehaviorTree; Msg.NoSkeletalMesh] [].

End Sample.

(** ** Reading the stat loop field by field *)

#[global] Instance EStatField_eq_dec : EqDecision EStatField.
Proof. solve_decision. Defined.

(** The multipliers of the entries that resolve to field [f], in iteration
    order. *)
Definition multipliers_for `{Externals} (f : EStatField)
    (StatMultipliers : TMap FName Float32.t) : list Float32.t :=
  omap (λ StatMod : FName * Float32.t,
          if decide (GetStatValuePtr StatMod.1 = Some f) then Some StatMod.2 else None)
    StatMultipliers.

(** ** Predicates on chains *)

(** Each element of the list is followed by its parent. *)
Definition linked (h : Heap) (l : list TemplatePtr) : Prop :=
  ∀ i x y, l !! i = Some x → l !! S i = Some y → parent_of h x y.

(** What holds of [CachedInheritanceChain] and [Current] each time the loop
    of [GetInheritanceChain] has appended a template and moved on, when the
    walk started at [start]. *)
Definition chain_state (h : Heap) (start : TemplatePtr)
    (Chain : list TemplatePtr) (Current : option TemplatePtr) : Prop :=
  NoDup Chain ∧
  (∀ x, x ∈ Chain → reaches h start x) ∧
  (∀ c, Current = Some c → reaches h start c) ∧
  (∀ x y, x ∈ Chain → parent_of h x y → y ∈ Chain ∨ Current = Some y) ∧
  linked h Chain ∧
  (∀ x c, last Chain = Some x → Current = Some c → parent_of h x c).

(** ** Predicates on results *)

(** The coupling between the flag and the error list that [Clear] sets up
    and [AddError] and [AddWarning] keep. *)
Definition flag_tracks_errors (r : FEnemyTemplateValidationResult) : Prop :=
  bIsValid r = false ↔ ValidationErrors r ≠ [].

(** A check either leaves the result alone and answers [true], or answers
    [false] with the flag down; warnings aside. *)
Definition check_sound (r : FEnemyTemplateValidationResult)
    (out : bool * FEnemyTemplateValidationResult) : Prop :=
  flag_tracks_errors out.2 ∧
  (out.1 = false → bIsValid out.2 = false) ∧
  (out.1 = true → bIsValid out.2 = bIsValid r).

(** * The rest of the template, configuration and editor code *)

(** ** EnemyTemplate.cpp: what validation looks at, read as plain data *)

Definition AbilityNameError (Index : Z) : FText :=
  FText_Format
    (NSLOCTEXT "EnemyCreator" "NoAbilityName"
       "Ability name is required for ability at index {0}")
    [FText_AsNumber_int32 Index].

Definition AbilityClassError (Name : FName) : FText :=
  FText_Format
    (NSLOCTEXT "EnemyCreator" "NoAbilityClass"
       "Ability class is required for ability '{0}'")
    [FText_FromName Name].

(** The errors one ability can draw: its missing name, then its missing
    class. *)
Definition ability_errors `{Externals} (T : UEnemyTemplate)
    (Ability : FEnemyAbilityDefinition) : list FText :=
  (if FName_IsNone (AbilityName Ability)
   then [AbilityNameError (IndexOfByKey (Abilities T) Ability)] else [])
  ++ (if IsValid (AbilityClass Ability) then []
      else [AbilityClassError (AbilityName Ability)]).

(** The errors and warnings of the three checks on the template's own
    assets. *)
Definition local_errors `{Externals} (T : UEnemyTemplate) : list FText :=
  if negb (IsValid (SkeletalMesh (VisualCustomization T))) then [Msg.NoSkeletalMesh]
  else if negb (IsValid (BehaviorTree (AIConfig T))) then [Msg.NoBehaviorTree]
  else if negb (IsValid (Blackboard (AIConfig T))) then [Msg.NoBlackboard]
  else flat_map (ability_errors T) (Abilities T).

Definition local_warnings (T : UEnemyTemplate) : list FText :=
  if IsValid (SkeletalMesh (VisualCustomization T))
     && negb (IsValid (AnimationBlueprint (VisualCustomization T)))
  then [Msg.NoAnimBP] else [].

Definition identity_errors (T : UEnemyTemplate) : list FText :=
  if FName_IsNone (TemplateName T) then [Msg.NoTemplateName] else [].

Definition identity_warnings (T : UEnemyTemplate) : list FText :=
  if FText_IsEmpty (DisplayName T)
  then [NSLOCTEXT "EnemyCreator" "NoDisplayName" "Display name is empty"] else [].

(** A template that lacks nothing validation asks of its own fields. *)
Definition locally_complete (T : UEnemyTemplate) : bool :=
  negb (FName_IsNone (TemplateName T))
  && IsValid (SkeletalMesh (VisualCustomization T))
  && IsValid (BehaviorTree (AIConfig T))
  && IsValid (Blackboard (AIConfig T))
  && forallb (λ Ability,
                negb (FName_IsNone (AbilityName Ability))
                && IsValid (AbilityClass Ability))
       (Abilities T).

(** ** EnemyTemplate.cpp: [CreateChildTemplate] *)

(** [UEnemyTemplate::CreateChildTemplate]. [Child] is the address
    [NewObject<UEnemyTemplate>()] hands out; the object there starts as the
    constructor leaves it. Returns the child pointer and the heap with the
    child in it. *)
Definition CreateChildTemplate (Child : TemplatePtr) (h : Heap) (this : TemplatePtr)
    (NewTemplateName : FName) : outcome (TemplatePtr * Heap) :=
  T ← deref h this;
  let ChildTemplate := UEnemyTemplate_new in
  let ChildTemplate :=
    MkTemplate NewTemplateName (DisplayName ChildTemplate) (Description ChildTemplate)
      (Some this) (TemplateTags ChildTemplate)
      (BaseStats T) (AIConfig T) (VisualCustomization T) (Abilities T)
      (CachedInheritanceChain ChildTemplate)
      (bNeedsInheritanceChainUpdate ChildTemplate) in
  mret (Child, <[Child := ChildTemplate]> h).

(** ** EnemyTemplate.cpp: [ApplyAbility] *)

(** The calls that change the ability system component. Building the effect
    context and the outgoing spec changes nothing; whether the spec handle
    comes out valid is the engine's answer [SpecHandle_IsValid]. *)
Inductive AbilitySystemCall :=
| GiveAbility (AbilityClassPtr : option Asset) (Level : Z) (InputID : Z)
| ApplyGameplayEffectSpecToSelf (EffectClassPtr : option Asset) (Level : Z).

(** [UEnemyTemplate::ApplyAbility]; [AbilitySystem] says whether the pointer
    is non-null. *)
Definition ApplyAbility (SpecHandle_IsValid : option Asset → bool)
    (AbilitySystem : bool) (Ability : FEnemyAbilityDefinition)
  : list AbilitySystemCall :=
  if negb AbilitySystem || negb (IsValid (AbilityClass Ability)) then []
  else
    GiveAbility (Get (AbilityClass Ability)) 1 INDEX_NONE ::
    flat_map
      (λ Effect : TSoftObjectPtr Asset,
         if IsValid Effect then
           if SpecHandle_IsValid (Get Effect)
           then [ApplyGameplayEffectSpecToSelf (Get Effect) 1]
           else []
         else [])
      (AbilityEffects Ability).

(** The ability-system calls of one [ApplyToInstance]: [ApplyAbility] on each
    definition the loop over [Abilities] selects. *)
Definition ApplyToInstance_ability_calls `{Externals}
    (SpecHandle_IsValid : option Asset → bool) (this : UEnemyTemplate)
    (EnemyInstance : option ACharacter)
    (Modification : option FEnemyTemplateModification) : list AbilitySystemCall :=
  match ApplyToInstance this EnemyInstance Modification with
  | Some Applied => flat_map (ApplyAbility SpecHandle_IsValid true) (AppliedAbilities Applied)
  | None => []
  end.

Definition is_GiveAbility (c : AbilitySystemCall) : bool :=
  match c with GiveAbility _ _ _ => true | _ => false end.

(** ** EnemyConfiguration.cpp: [InitializeFromTemplate], [ApplyConfiguration] *)

(** A soft reference assigned from a pointer to a live object: valid, and
    handing that pointer back. *)
Definition SoftObjectPtr_assign {T} (Object : T) : TSoftObjectPtr T := SoftLoaded Object.

(** [UEnemyConfiguration::InitializeFromTemplate]: the configuration after
    the call. *)
Definition InitializeFromTemplate (h : Heap) (this : UEnemyConfiguration)
    (Template : option TemplatePtr) : outcome UEnemyConfiguration :=
  match Template with
  | None => mret this
  | Some p =>
      T ← deref h p;
      mret (MkConfiguration (SoftObjectPtr_assign p)
              (MkModification [] [] (AIConfig T) (VisualCustomization T)
                 (TemplateTags T)))
  end.

(** [UEnemyConfiguration::ApplyConfiguration]: [None] is [return false]. *)
Definition ApplyConfiguration `{Externals} (h : Heap) (this : UEnemyConfiguration)
    (Enemy : option ACharacter) : outcome (option FAppliedConfiguration) :=
  match Enemy with
  | None => mret None
  | Some _ =>
      if negb (IsValid (BaseTemplate this)) then mret None
      else
        match Get (BaseTemplate this) with
        | None => mret None
        | Some p =>
            Template ← deref h p;
            mret (ApplyToInstance Template Enemy (Some (Modifications this)))
        end
  end.

(** ** EnemyPreviewActor.cpp *)

(** The preview actor as its methods see it: the tree it holds and whether
    its controller is an [AAIController]. *)
Record AEnemyPreviewActor := MkPreviewActor {
  CurrentBehaviorTree : option Asset;
  HasAIController : bool;
}.

Inductive AIControllerCall :=
| RunBehaviorTree (BT : Asset)
| StopTree.

#[global] Instance Asset_eq_dec : EqDecision Asset := (_ : EqDecision string).

(** [AEnemyPreviewActor::SetBehaviorTree]: the actor afterwards and the calls
    made on its controller. *)
Definition SetBehaviorTree (this : AEnemyPreviewActor) (NewBT : option Asset)
  : AEnemyPreviewActor * list AIControllerCall :=
  if bool_decide (NewBT ≠ CurrentBehaviorTree this) then
    let this := MkPreviewActor NewBT (HasAIController this) in
    if HasAIController this then
      match CurrentBehaviorTree this with
      | Some BT => (this, [RunBehaviorTree BT])
      | None => (this, [StopTree])
      end
    else (this, [])
  else (this, []).

Definition GetBehaviorTree (this : AEnemyPreviewActor) : option Asset :=
  CurrentBehaviorTree this.

(** ** EnemyCreatorTool.cpp (EnemyCreatorTools) *)

Inductive EEnemyType := Melee | Ranged | Support | Elite | Boss.

Inductive EAssetClass :=
| USkeletalMesh | UAnimBlueprint | UBehaviorTree | UGameplayAbility | UAnimMontage.

(** What the editor code asks of the engine: loading an object of a class
    from a path ([StaticLoadObject] with its cast, [LoadClass],
    [LoadObject]; [None] is a null result), the name of an enum value
    ([UEnum::GetValueAsString]) and the lookup of a gameplay tag by name
    ([FGameplayTag::RequestGameplayTag]; [None] is the empty tag, which
    [AddTag] does not add). *)
Class EditorExternals := {
  LoadObject : EAssetClass → string → option Asset;
  UEnum_GetValueAsString : EEnemyType → string;
  RequestGameplayTag : FName → option FName;
}.

(** [FString::RightChop (Count)]: the string without its [Count] leftmost
    characters. *)
Definition RightChop (Count : nat) (s : string) : string :=
  String.substring Count (String.length s - Count) s.

(** [FName (const TCHAR* )]: the empty string gives [NAME_None]. *)
Definition FName_of_string (s : string) : FName :=
  if bool_decide (s = "") then NAME_None else s.

(** A [float] literal with a decimal fraction, as the compiler rounds it:
    [num / den] rounded to nearest. *)
Definition Float32_literal (num den : Z) : Float32.t :=
  SFdiv Float32.prec Float32.emax (Float32.of_Z num) (Float32.of_Z den).

Definition FVector_splat (v : Float32.t) : FVector := MkVector v v v.

(** [FGameplayTagContainer::AddTag]. *)
Definition AddTag (Tags : FGameplayTagContainer) (Tag : option FName)
  : FGameplayTagContainer :=
  match Tag with
  | Some t => if bool_decide (t ∈ Tags) then Tags else Tags ++ [t]
  | None => Tags
  end.

(** The first two [switch] statements of [InitializeTemplateDefaults]. *)
Definition DefaultBaseStats (EnemyType : EEnemyType) : FEnemyBaseStats :=
  match EnemyType with
  | Melee =>
      MkBaseStats (Float32.of_Z 100) (Float32.of_Z 25) (Float32.of_Z 400)
        (Float32.of_Z 1) (Float32.of_Z 15) (Float32_literal 5 100) (Float32.of_Z 2)
  | Ranged =>
      MkBaseStats (Float32.of_Z 80) (Float32.of_Z 20) (Float32.of_Z 350)
        (Float32_literal 8 10) (Float32.of_Z 10) (Float32_literal 1 10)
        (Float32_literal 25 10)
  | Support =>
      MkBaseStats (Float32.of_Z 90) (Float32.of_Z 15) (Float32.of_Z 375)
        (Float32_literal 9 10) (Float32.of_Z 12) (Float32_literal 3 100)
        (Float32_literal 18 10)
  | Elite =>
      MkBaseStats (Float32.of_Z 200) (Float32.of_Z 35) (Float32.of_Z 425)
        (Float32_literal 12 10) (Float32.of_Z 25) (Float32_literal 15 100)
        (Float32_literal 28 10)
  | Boss =>
      MkBaseStats (Float32.of_Z 500) (Float32.of_Z 50) (Float32.of_Z 350)
        (Float32_literal 7 10) (Float32.of_Z 40) (Float32_literal 2 10)
        (Float32.of_Z 3)
  end.

Definition SetDefaultAIConfig (EnemyType : EEnemyType) (c : FEnemyAIConfig)
  : FEnemyAIConfig :=
  let set (Aggression Range : Float32.t) (Cover Coordinate : bool) :=
    MkAIConfig (BehaviorTree c) (Blackboard c) Aggression Range Cover Coordinate
      (BehaviorParameters c) (PersonalityTags c) in
  match EnemyType with
  | Melee => set (Float32_literal 8 10) (Float32.of_Z 200) false true
  | Ranged => set (Float32_literal 4 10) (Float32.of_Z 800) true true
  | Support => set (Float32_literal 2 10) (Float32.of_Z 600) true true
  | Elite => set (Float32_literal 7 10) (Float32.of_Z 400) true true
  | Boss => set (Float32_literal 9 10) (Float32.of_Z 300) false false
  end.

Definition DefaultScale (EnemyType : EEnemyType) : FVector :=
  match EnemyType with
  | Boss => FVector_splat (Float32.of_Z 2)
  | Elite => FVector_splat (Float32_literal 15 10)
  | _ => FVector_splat (Float32.of_Z 1)
  end.

(** The ability definitions [LoadDefaultAbilities] builds before it loads
    their assets: a default-constructed definition with five fields set. *)
Definition MakeAbility (Name Key DisplayText DescKey DescText : string)
    (Cooldown Range_ : Z) : FEnemyAbilityDefinition :=
  let d := FEnemyAbilityDefinition_default in
  MkAbility (FName_of_string Name) (NSLOCTEXT "EnemyAbilities" Key DisplayText)
    (NSLOCTEXT "EnemyAbilities" DescKey DescText) (AbilityTags d)
    (Float32.of_Z Cooldown) (Float32.of_Z Range_) (Cost d) (bIsPassive d)
    (AbilityClass d) (AbilityMontage d) (AbilityEffects d).

Definition DefaultAbilityList (EnemyType : EEnemyType) : list FEnemyAbilityDefinition :=
  MakeAbility "BasicAttack" "BasicAttack" "Basic Attack" "BasicAttackDesc"
    "Basic melee or ranged attack" 1
    (match EnemyType with Ranged => 800 | _ => 200 end)%Z
  ::
  match EnemyType with
  | Melee =>
      [MakeAbility "Charge" "Charge" "Charge Attack" "ChargeDesc"
         "Charge towards target and deal damage" 8 600;
       MakeAbility "Cleave" "Cleave" "Cleaving Strike" "CleaveDesc"
         "Wide sweeping attack that hits multiple targets" 5 250]
  | Ranged =>
      [MakeAbility "PowerShot" "PowerShot" "Power Shot" "PowerShotDesc"
         "Charged shot that deals high damage" 10 1000;
       MakeAbility "Volley" "Volley" "Arrow Volley" "VolleyDesc"
         "Fire multiple projectiles in an area" 15 800]
  | Support =>
      [MakeAbility "Heal" "Heal" "Healing Pulse" "HealDesc"
         "Heal nearby allies" 12 500;
       MakeAbility "Buff" "Buff" "Battle Cry" "BuffDesc"
         "Increase damage of nearby allies" 20 600]
  | Elite =>
      [MakeAbility "Ultimate" "Ultimate" "Elite Power" "UltimateDesc"
         "Powerful ability unique to this elite enemy" 30 400]
  | Boss =>
      [MakeAbility "Phase1" "Phase1" "Phase 1 Ultimate" "Phase1Desc"
         "First phase special ability" 45 1000;
       MakeAbility "Phase2" "Phase2" "Phase 2 Ultimate" "Phase2Desc"
         "Second phase special ability" 60 1000]
  end.

(** The type name the asset paths are built from:
    [UEnum::GetValueAsString (EnemyType).RightChop (11)]. *)
Definition TypeString `{EditorExternals} (EnemyType : EEnemyType) : string :=
  RightChop 11 (UEnum_GetValueAsString EnemyType).

(** The body of the loop "Load ability assets". *)
Definition LoadAbilityAssets `{EditorExternals} (EnemyType : EEnemyType)
    (Ability : FEnemyAbilityDefinition) : FEnemyAbilityDefinition :=
  let AbilityPath :=
    ("/Game/Enemies/" ++ TypeString EnemyType ++ "/Abilities/GA_"
       ++ TypeString EnemyType ++ "_" ++ AbilityName Ability)%string in
  let Class_ :=
    match LoadObject UGameplayAbility AbilityPath with
    | Some c => SoftObjectPtr_assign c
    | None => AbilityClass Ability
    end in
  let MontagePath :=
    ("/Game/Enemies/" ++ TypeString EnemyType ++ "/Animations/AM_"
       ++ TypeString EnemyType ++ "_" ++ AbilityName Ability)%string in
  let Montage :=
    match LoadObject UAnimMontage MontagePath with
    | Some m => SoftObjectPtr_assign m
    | None => AbilityMontage Ability
    end in
  MkAbility (AbilityName Ability) (AbilityDisplayName Ability)
    (AbilityDescription Ability) (AbilityTags Ability) (CooldownTime Ability)
    (Range Ability) (Cost Ability) (bIsPassive Ability) Class_ Montage
    (AbilityEffects Ability).

(** [UEnemyCreatorTool::LoadDefaultAbilities]: the new contents of the
    template's ability array (the old contents are emptied first). *)
Definition LoadDefaultAbilities `{EditorExternals} (EnemyType : EEnemyType)
  : list FEnemyAbilityDefinition :=
  map (LoadAbilityAssets EnemyType) (DefaultAbilityList EnemyType).

(** [UEnemyCreatorTool::LoadDefaultAssets] on a non-null template. *)
Definition LoadDefaultAssets `{EditorExternals} (Template : UEnemyTemplate)
    (EnemyType : EEnemyType) : UEnemyTemplate :=
  let BasePath := ("/Game/Enemies/" ++ TypeString EnemyType ++ "/")%string in
  let V := VisualCustomization Template in
  let Mesh :=
    match LoadObject USkeletalMesh (BasePath ++ "SK_" ++ TypeString EnemyType)%string with
    | Some m => SoftObjectPtr_assign m
    | None => SkeletalMesh V
    end in
  let AnimBP :=
    match LoadObject UAnimBlueprint (BasePath ++ "ABP_" ++ TypeString EnemyType)%string with
    | Some a => SoftObjectPtr_assign a
    | None => AnimationBlueprint V
    end in
  let C := AIConfig Template in
  let BT :=
    match LoadObject UBehaviorTree (BasePath ++ "BT_" ++ TypeString EnemyType)%string with
    | Some b => SoftObjectPtr_assign b
    | None => BehaviorTree C
    end in
  MkTemplate (TemplateName Template) (DisplayName Template) (Description Template)
    (ParentTemplate Template) (TemplateTags Template) (BaseStats Template)
    (MkAIConfig BT (Blackboard C) (AggressionLevel C) (PreferredRange C)
       (bUseCover C) (bCoordinateWithAllies C) (BehaviorParameters C)
       (PersonalityTags C))
    (MkVisuals Mesh AnimBP (Scale V) (ColorTint V) (ScalarParameters V)
       (VectorParameters V) (TextureParameters V) (MaterialOverrides V))
    (LoadDefaultAbilities EnemyType)
    (CachedInheritanceChain Template) (bNeedsInheritanceChainUpdate Template).

(** [UEnemyCreatorTool::InitializeTemplateDefaults] on a non-null template. *)
Definition InitializeTemplateDefaults `{EditorExternals} (Template : UEnemyTemplate)
    (EnemyType : EEnemyType) : UEnemyTemplate :=
  let Tags :=
    AddTag (TemplateTags Template)
      (RequestGameplayTag
         (FName_of_string ("Enemy.Type." ++ UEnum_GetValueAsString EnemyType)%string)) in
  let V := VisualCustomization Template in
  let Template :=
    MkTemplate (TemplateName Template) (DisplayName Template) (Description Template)
      (ParentTemplate Template) Tags (DefaultBaseStats EnemyType)
      (SetDefaultAIConfig EnemyType (AIConfig Template))
      (MkVisuals (SkeletalMesh V) (AnimationBlueprint V) (DefaultScale EnemyType)
         (ColorTint V) (ScalarParameters V) (VectorParameters V)
         (TextureParameters V) (MaterialOverrides V))
      (Abilities Template)
      (CachedInheritanceChain Template) (bNeedsInheritanceChainUpdate Template) in
  LoadDefaultAssets Template EnemyType.

(** [UEnemyCreatorTool::CreateNewEnemyTemplate]. [New] is the address
    [NewObject] hands out. Returns the pointer the method returns, the heap
    with the new object in it, and the errors sent to the log. *)
Definition CreateNewEnemyTemplate `{Externals} `{EditorExternals}
    (fuel : nat) (New : TemplatePtr) (h : Heap)
    (TemplateName_ : string) (EnemyType : EEnemyType)
  : outcome (option TemplatePtr * Heap * list FText) :=
  let NewTemplate := UEnemyTemplate_new in
  let NewTemplate :=
    MkTemplate (FName_of_string TemplateName_) (FText_FromString TemplateName_)
      (Description NewTemplate) (ParentTemplate NewTemplate)
      (TemplateTags NewTemplate) (BaseStats NewTemplate) (AIConfig NewTemplate)
      (VisualCustomization NewTemplate) (Abilities NewTemplate)
      (CachedInheritanceChain NewTemplate)
      (bNeedsInheritanceChainUpdate NewTemplate) in
  let NewTemplate := InitializeTemplateDefaults NewTemplate EnemyType in
  let h := <[New := NewTemplate]> h in
  '(ok, ValidationResult) ←
    ValidateTemplate fuel h New FEnemyTemplateValidationResult_default;
  if negb ok then mret (None, h, ValidationErrors ValidationResult)
  else mret (Some New, h, []).

(** [UEnemyCreatorTool::SimulateAIBehavior] and [OnBehaviorTreeGenerated], on
    the tool's [PreviewActor] member: the member afterwards and the calls
    made on the actor's controller. *)
Definition SimulateAIBehavior (PreviewActor : option AEnemyPreviewActor)
  : list AIControllerCall :=
  match PreviewActor with
  | None => []
  | Some Actor =>
      if HasAIController Actor then
        match GetBehaviorTree Actor with
        | Some BT => [RunBehaviorTree BT]
        | None => []
        end
      else []
  end.

Definition OnBehaviorTreeGenerated (PreviewActor : option AEnemyPreviewActor)
    (GeneratedBT : option Asset)
  : option AEnemyPreviewActor * list AIControllerCall :=
  match GeneratedBT, PreviewActor with
  | Some _, Some Actor =>
      let '(Actor, calls) := SetBehaviorTree Actor GeneratedBT in
      (Some Actor, calls ++ SimulateAIBehavior (Some Actor))
  | _, _ => (PreviewActor, [])
  end.

(** [UEnemyCreatorTool::CreateEnemyConfiguration], up to the preview update:
    the configuration returned ([None] is [nullptr]). *)
Definition CreateEnemyConfiguration (h : Heap) (BaseTemplate_ : option TemplatePtr)
  : outcome (option UEnemyConfiguration) :=
  match BaseTemplate_ with
  | None => mret None
  | Some p =>
      let NewConfig :=
        MkConfiguration (SoftObjectPtr_assign p)
          (MkModification [] [] FEnemyAIConfig_default
             FEnemyVisualCustomization_default []) in
      NewConfig ← InitializeFromTemplate h NewConfig BaseTemplate_;
      mret (Some NewConfig)
  end.

(** ** Helpers for the statements about this code *)

(** Whether a list is empty. *)
Definition is_nil {A} (l : list A) : bool :=
  match l with [] => true | _ => false end.

(** The object [CreateChildTemplate] puts at the new address. *)
Definition child_of (T : UEnemyTemplate) (this : TemplatePtr) (Name : FName)
  : UEnemyTemplate :=
  MkTemplate Name FText_Empty FText_Empty (Some this) [] (BaseStats T) (AIConfig T)
    (VisualCustomization T) (Abilities T) [] true.

(** Whether the class reference of a definition is valid. *)
Definition class_is_valid (Ability : FEnemyAbilityDefinition) : bool :=
  IsValid (AbilityClass Ability).

(** The value names of [EEnemyType]. *)
Definition EEnemyType_name (EnemyType : EEnemyType) : string :=
  match EnemyType with
  | Melee => "Melee" | Ranged => "Ranged" | Support => "Support"
  | Elite => "Elite" | Boss => "Boss"
  end.

(** An editor in which no asset is found and enum values print qualified. *)
Definition Editor_nothing_loads : EditorExternals :=
  {| LoadObject := λ _ _, None;
     UEnum_GetValueAsString := λ t, ("EEnemyType::" ++ EEnemyType_name t)%string;
     RequestGameplayTag := λ n, Some n |}.

(** * Properties *)

Create HintDb validation.

(** ** The validation result *)

Lemma flag_tracks_errors_Clear r : flag_tracks_errors (Clear r).
Proof. split; simpl; [discriminate | congruence]. Qed.

Lemma flag_tracks_errors_AddError r e : flag_tracks_errors (AddError r e).
Proof.
  split; simpl; [intros _ | reflexivity].
  destruct (ValidationErrors r); discriminate.
Qed.

Lemma flag_tracks_errors_AddWarning r w :
  flag_tracks_errors r → flag_tracks_errors (AddWarning r w).
Proof. unfold flag_tracks_errors. simpl. tauto. Qed.

#[local] Hint Resolve flag_tracks_errors_Clear flag_tracks_errors_AddError
  flag_tracks_errors_AddWarning : validation.

Lemma ValidateIdentity_tracks T r :
  flag_tracks_errors r → flag_tracks_errors (ValidateIdentity T r).
Proof.
  intros Hr. unfold ValidateIdentity.
  destruct (FName_IsNone _), (FText_IsEmpty _); auto with validation.
Qed.

Lemma MergeParentResult_tracks P ok pr r :
  flag_tracks_errors r → flag_tracks_errors (MergeParentResult P ok pr r).
Proof.
  intros Hr. unfold MergeParentResult. destruct ok; simpl; [done|].
  split; simpl; [intros _ | reflexivity].
  destruct (ValidationErrors r); discriminate.
Qed.

Ltac solve_check :=
  solve [ split;
          [ simpl; auto with validation
          | split; simpl; first [done | auto with validation] ] ].

Lemma ValidateVisualAssets_sound T r :
  flag_tracks_errors r → check_sound r (ValidateVisualAssets T r).
Proof.
  intros Hr. unfold ValidateVisualAssets, check_sound.
  destruct (IsValid (SkeletalMesh _)), (IsValid (AnimationBlueprint _)); simpl;
    solve_check.
Qed.

Lemma ValidateAIConfiguration_sound T r :
  flag_tracks_errors r → check_sound r (ValidateAIConfiguration T r).
Proof.
  intros Hr. unfold ValidateAIConfiguration, check_sound.
  destruct (IsValid (BehaviorTree _)), (IsValid (Blackboard _)); simpl;
    solve_check.
Qed.

Lemma ValidateAbilities_body_sound `{Externals} T r st A :
  check_sound r st → check_sound r (ValidateAbilities_body T st A).
Proof.
  intros Hst. unfold ValidateAbilities_body.
  destruct (FName_IsNone _), (IsValid (AbilityClass _)); simpl;
    first [assumption | solve_check].
Qed.

Lemma ValidateAbilities_fold_sound `{Externals} T r l st :
  check_sound r st → check_sound r (fold_left (ValidateAbilities_body T) l st).
Proof.
  revert st. induction l as [|A l IH]; simpl; [done|].
  intros st Hst. apply IH. by apply ValidateAbilities_body_sound.
Qed.

Lemma ValidateAbilities_sound `{Externals} T r :
  flag_tracks_errors r → check_sound r (ValidateAbilities T r).
Proof.
  intros Hr. apply ValidateAbilities_fold_sound.
  split; [exact Hr | split; done].
Qed.

(** The tail of [ValidateTemplate] returns the flag of the result it
    leaves, and the flag tracks the errors. *)
Lemma ValidateLocal_sound `{Externals} T r :
  flag_tracks_errors r →
  (ValidateLocal T r).1 = bIsValid (ValidateLocal T r).2 ∧
  flag_tracks_errors (ValidateLocal T r).2.
Proof.
  intros Hr. unfold ValidateLocal.
  destruct (ValidateVisualAssets_sound T r Hr) as (Ht1 & Hf1 & _).
  destruct (ValidateVisualAssets T r) as [[] r1]; simpl in *; [|by rewrite Hf1].
  destruct (ValidateAIConfiguration_sound T r1 Ht1) as (Ht2 & Hf2 & _).
  destruct (ValidateAIConfiguration T r1) as [[] r2]; simpl in *; [|by rewrite Hf2].
  destruct (ValidateAbilities_sound T r2 Ht2) as (Ht3 & Hf3 & _).
  destruct (ValidateAbilities T r2) as [[] r3]; simpl in *; [done|by rewrite Hf3].
Qed.

(** Unfolding one activation of [ValidateTemplate]. *)
Lemma ValidateTemplate_S `{Externals} fuel h this r :
  ValidateTemplate (S fuel) h this r =
    (T ← deref h this;
     OutResult ←
       match ParentTemplate T with
       | Some p =>
           '(ParentOk, ParentResult) ←
             ValidateTemplate fuel h p FEnemyTemplateValidationResult_default;
           Parent ← deref h p;
           mret (MergeParentResult Parent ParentOk ParentResult
                   (ValidateIdentity T (Clear r)))
       | None => mret (ValidateIdentity T (Clear r))
       end;
     mret (ValidateLocal T OutResult)).
Proof. reflexivity. Qed.

(** Every normal return of [ValidateTemplate] is the tail run on a result
    whose flag tracks its errors. *)
Lemma ValidateTemplate_returns_inv `{Externals} fuel h this r out :
  ValidateTemplate fuel h this r = Returns out →
  ∃ T r0, h !! this = Some T ∧ flag_tracks_errors r0 ∧ out = ValidateLocal T r0.
Proof.
  destruct fuel as [|fuel]; [discriminate|].
  rewrite ValidateTemplate_S. unfold deref.
  destruct (h !! this) as [T|] eqn:HT; simpl; [|discriminate].
  destruct (ParentTemplate T) as [p|]; simpl.
  - destruct (ValidateTemplate fuel h p _) as [[ok pr]| |]; simpl; try discriminate.
    destruct (h !! p) as [P|]; simpl; [|discriminate].
    intros [= <-]. eexists _, _. split; [done|]. split; [|done].
    apply MergeParentResult_tracks, ValidateIdentity_tracks, flag_tracks_errors_Clear.
  - intros [= <-]. eexists _, _. split; [done|]. split; [|done].
    apply ValidateIdentity_tracks, flag_tracks_errors_Clear.
Qed.

Lemma ValidateTemplate_sound `{Externals} fuel h this r b res :
  ValidateTemplate fuel h this r = Returns (b, res) →
  b = bIsValid res ∧ flag_tracks_errors res.
Proof.
  intros (T & r0 & _ & Hr0 & Hout)%ValidateTemplate_returns_inv.
  destruct (ValidateLocal_sound T r0 Hr0) as [Hb Ht].
  rewrite <- Hout in Hb, Ht. done.
Qed.

Lemma ValidateStatMultipliers_sound l r :
  flag_tracks_errors r → check_sound r (ValidateStatMultipliers l r).
Proof.
  intros Hr. induction l as [|[k v] l IH]; simpl.
  - split; [exact Hr | split; done].
  - destruct (Float32.leb v Float32.zero); [solve_check | exact IH].
Qed.

Lemma ValidateModifiedAbilities_sound T l r :
  flag_tracks_errors r → check_sound r (ValidateModifiedAbilities T l r).
Proof.
  intros Hr. induction l as [|[k v] l IH]; simpl.
  - split; [exact Hr | split; done].
  - destruct (FName_IsNone k); [solve_check|].
    destruct (AbilityFound _ k); simpl; [exact IH | solve_check].
Qed.

Lemma ValidateConfiguration_sound `{Externals} fuel h cfg r b res :
  ValidateConfiguration fuel h cfg r = Returns (b, res) →
  b = bIsValid res ∧ flag_tracks_errors res.
Proof.
  unfold ValidateConfiguration.
  destruct (IsValid (BaseTemplate cfg)); simpl.
  2: { intros [= <- <-]. split; [done | apply flag_tracks_errors_AddError]. }
  destruct (Get (BaseTemplate cfg)) as [a|]; simpl.
  2: { intros [= <- <-]. split; [done | apply flag_tracks_errors_AddError]. }
  destruct (ValidateTemplate fuel h a (Clear r)) as [[ok r1]| |] eqn:HV;
    simpl; try discriminate.
  apply ValidateTemplate_sound in HV as [-> Hr1].
  destruct (bIsValid r1) eqn:Hv1; simpl.
  2: { intros [= <- <-]. done. }
  unfold deref. destruct (h !! a) as [T|]; simpl; [|discriminate].
  destruct (ValidateStatMultipliers_sound (StatMultipliers (Modifications cfg)) r1 Hr1)
    as (Ht2 & Hf2 & Hv2).
  destruct (ValidateStatMultipliers _ r1) as [[] r2]; simpl in *.
  2: { intros [= <- <-]. by rewrite Hf2. }
  destruct (ValidateModifiedAbilities_sound T (ModifiedAbilities (Modifications cfg)) r2 Ht2)
    as (Ht3 & Hf3 & Hv3).
  destruct (ValidateModifiedAbilities T _ r2) as [[] r3]; simpl in *.
  2: { intros [= <- <-]. by rewrite Hf3. }
  intros [= <- <-]. rewrite Hv3, Hv2, Hv1 by done. done.
Qed.

(** C10. Whenever [ValidateTemplate] or [ValidateConfiguration] returns, the
    boolean it returns is the [bIsValid] flag of the result it leaves, and
    that flag is [false] exactly when the error list is non-empty. A warning
    changes neither the flag nor the errors, and merging an invalid parent's
    errors into the child's list (an append that does not go through
    [AddError]) keeps the coupling, since the wrapping error is added
    first. *)
Theorem validation_flag_matches_errors `{Externals} (fuel : nat) (h : Heap) :
  (∀ this r b res,
     ValidateTemplate fuel h this r = Returns (b, res) →
     b = bIsValid res ∧ (bIsValid res = false ↔ ValidationErrors res ≠ [])) ∧
  (∀ cfg r b res,
     ValidateConfiguration fuel h cfg r = Returns (b, res) →
     b = bIsValid res ∧ (bIsValid res = false ↔ ValidationErrors res ≠ [])) ∧
  (∀ r w,
     bIsValid (AddWarning r w) = bIsValid r ∧
     ValidationErrors (AddWarning r w) = ValidationErrors r) ∧
  (∀ P pr r,
     let merged := MergeParentResult P false pr r in
     bIsValid merged = false ∧
     ∃ e, ValidationErrors merged = ValidationErrors r ++ e :: ValidationErrors pr).
Proof.
  split; [|split; [|split]].
  - intros this r b res Hv. by apply ValidateTemplate_sound in Hv.
  - intros cfg r b res Hv. by apply ValidateConfiguration_sound in Hv.
  - done.
  - intros P pr r. simpl. split; [done|].
    eexists. by rewrite <- app_assoc.
Qed.

Lemma validation_flag_matches_errors_witness :
  false = bIsValid Sample.GhostResult ∧
  (bIsValid Sample.GhostResult = false ↔ ValidationErrors Sample.GhostResult ≠ []).
Proof.
  apply (proj1 (validation_flag_matches_errors (H := Externals_by_name)
                  2 Sample.heap_ghost)
           2%positive FEnemyTemplateValidationResult_default).
  vm_compute. reflexivity.
Defined.

(** ** Determinism and termination of [ValidateTemplate] *)

(** The incoming contents of [OutResult] are discarded by [Clear]. *)
Lemma ValidateTemplate_ignores_OutResult `{Externals} fuel h this r1 r2 :
  ValidateTemplate fuel h this r1 = ValidateTemplate fuel h this r2.
Proof. destruct fuel; reflexivity. Qed.

(** More fuel does not change a result already obtained. *)
Lemma ValidateTemplate_fuel_mono `{Externals} fuel fuel' h this r out :
  ValidateTemplate fuel h this r = Returns out →
  (fuel ≤ fuel')%nat →
  ValidateTemplate fuel' h this r = Returns out.
Proof.
  revert fuel' this r out.
  induction fuel as [|fuel IH]; intros fuel' this r out; [discriminate|].
  intros Hv Hle. destruct fuel' as [|fuel']; [lia|].
  rewrite ValidateTemplate_S in *.
  destruct (deref h this) as [T| |]; simpl in *; try discriminate.
  destruct (ParentTemplate T) as [p|]; [|done].
  destruct (ValidateTemplate fuel h p _) as [pout| |] eqn:Hp; simpl in Hv;
    try discriminate.
  rewrite (IH fuel' p _ pout Hp) by lia. done.
Qed.

(** C7. [ValidateTemplate] is deterministic and idempotent. The method is
    [const] and reads only the object graph; on one and the same graph, any
    two calls that return (whatever step budget each ran under, and whatever
    the caller's [OutResult] held before, which includes the result of the
    previous call) return the same boolean and leave equal results: the
    same flag, the same errors in the same order, the same warnings in the
    same order. *)
Theorem ValidateTemplate_deterministic `{Externals} (h : Heap) (this : TemplatePtr)
    (fuel1 fuel2 : nat) (r1 r2 : FEnemyTemplateValidationResult)
    (b1 b2 : bool) (res1 res2 : FEnemyTemplateValidationResult) :
  ValidateTemplate fuel1 h this r1 = Returns (b1, res1) →
  ValidateTemplate fuel2 h this r2 = Returns (b2, res2) →
  b1 = b2 ∧
  bIsValid res1 = bIsValid res2 ∧
  ValidationErrors res1 = ValidationErrors res2 ∧
  ValidationWarnings res1 = ValidationWarnings res2 ∧
  ValidateTemplate fuel1 h this res1 = Returns (b1, res1).
Proof.
  intros H1 H2.
  assert (Heq : (b1, res1) = (b2, res2)).
  { assert (H1' := ValidateTemplate_fuel_mono _ (fuel1 `max` fuel2) _ _ _ _ H1
                      ltac:(lia)).
    assert (H2' := ValidateTemplate_fuel_mono _ (fuel1 `max` fuel2) _ _ _ _ H2
                      ltac:(lia)).
    rewrite (ValidateTemplate_ignores_OutResult _ _ _ r1 r2) in H1'. congruence. }
  injection Heq as -> ->. repeat split; try done.
  by rewrite (ValidateTemplate_ignores_OutResult _ _ _ res2 r1).
Qed.

Lemma ValidateTemplate_deterministic_witness :
  false = false ∧
  bIsValid Sample.GhostResult = bIsValid Sample.GhostResult ∧
  ValidationErrors Sample.GhostResult = ValidationErrors Sample.GhostResult ∧
  ValidationWarnings Sample.GhostResult = ValidationWarnings Sample.GhostResult ∧
  ValidateTemplate (H := Externals_by_name) 2 Sample.heap_ghost 2%positive
    Sample.GhostResult = Returns (false, Sample.GhostResult).
Proof.
  apply (ValidateTemplate_deterministic (H := Externals_by_name)
           Sample.heap_ghost 2%positive 2 7
           FEnemyTemplateValidationResult_default Sample.GhostResult).
  - vm_compute. reflexivity.
  - vm_compute. reflexivity.
Defined.

Lemma parent_chain_ends_live h a n : parent_chain_ends h a n → is_Some (h !! a).
Proof. destruct 1; eauto. Qed.

(** A chain that ends after [n] steps is validated by [n + 1] activations. *)
Lemma ValidateTemplate_returns_on_chain `{Externals} h a n :
  parent_chain_ends h a n →
  ∀ fuel r, n < fuel → ∃ out, ValidateTemplate fuel h a r = Returns out.
Proof.
  induction 1 as [a T Ha Hp | a T p n Ha Hp Hends IH]; intros fuel r Hlt;
    (destruct fuel as [|fuel]; [lia|]);
    rewrite ValidateTemplate_S; unfold deref; rewrite Ha; simpl; rewrite Hp.
  - eauto.
  - destruct (IH fuel FEnemyTemplateValidationResult_default) as [[ok pr] ->]; [lia|].
    destruct (parent_chain_ends_live _ _ _ Hends) as [P ->]. simpl. eauto.
Qed.

(** A call that returns has walked a chain that ends. *)
Lemma ValidateTemplate_returns_only_on_chain `{Externals} fuel h a r out :
  ValidateTemplate fuel h a r = Returns out →
  ∃ n, n < fuel ∧ parent_chain_ends h a n.
Proof.
  revert a r out. induction fuel as [|fuel IH]; intros a r out; [discriminate|].
  rewrite ValidateTemplate_S. unfold deref.
  destruct (h !! a) as [T|] eqn:Ha; simpl; [|discriminate].
  destruct (ParentTemplate T) as [p|] eqn:Hp.
  - destruct (ValidateTemplate fuel h p _) as [pout| |] eqn:Hrec; simpl;
      try discriminate.
    intros _. destruct (IH _ _ _ Hrec) as (n & Hn & Hends).
    exists (S n). split; [lia|]. by eapply chain_step.
  - intros _. exists 0. split; [lia|]. by eapply chain_root.
Qed.

(** In a closed heap a call that does not return never faults either: at
    every budget it is still descending. *)
Lemma ValidateTemplate_descends_forever `{Externals} h :
  heap_closed h →
  ∀ fuel a r,
    is_Some (h !! a) →
    (¬ ∃ n, parent_chain_ends h a n) →
    ValidateTemplate fuel h a r = OutOfFuel.
Proof.
  intros Hclosed. induction fuel as [|fuel IH]; intros a r [T Ha] Hinf; [done|].
  rewrite ValidateTemplate_S. unfold deref. rewrite Ha. simpl.
  destruct (ParentTemplate T) as [p|] eqn:Hp.
  - rewrite IH; [done | by eapply Hclosed |].
    intros [n Hn]. apply Hinf. exists (S n). by eapply chain_step.
  - exfalso. apply Hinf. exists 0. by eapply chain_root.
Qed.

(** C9. [ValidateTemplate] recurses into the parent with no visited set, so
    it terminates exactly when the parent chain of the template is finite
    and acyclic: a chain that reaches a root after [n] steps is validated
    within [n + 1] activations; a call that returns has walked such a
    chain; and on a chain that never reaches a root (a cycle, in a heap
    without dangling pointers) the call is still descending at every
    budget. *)
Theorem ValidateTemplate_terminates_iff_chain_ends `{Externals}
    (h : Heap) (this : TemplatePtr) (r : FEnemyTemplateValidationResult) :
  (∀ n, parent_chain_ends h this n →
        ∀ fuel, n < fuel → ∃ out, ValidateTemplate fuel h this r = Returns out) ∧
  ((∃ fuel out, ValidateTemplate fuel h this r = Returns out) →
   ∃ n, parent_chain_ends h this n) ∧
  (heap_closed h → is_Some (h !! this) →
   (¬ ∃ n, parent_chain_ends h this n) →
   ∀ fuel, ValidateTemplate fuel h this r = OutOfFuel).
Proof.
  split; [|split].
  - intros n Hends fuel Hlt. by eapply ValidateTemplate_returns_on_chain.
  - intros (fuel & out & Hv).
    destruct (ValidateTemplate_returns_only_on_chain _ _ _ _ _ Hv) as (n & _ & Hn).
    eauto.
  - intros Hclosed Hlive Hinf fuel. by apply ValidateTemplate_descends_forever.
Qed.

(** The sample heaps: the line 3 → 2 → 1 ends, the cycle 1 ⇄ 2 does not. *)
Lemma heap_line_ends : parent_chain_ends Sample.heap_line 3%positive 2.
Proof.
  eapply chain_step; [vm_compute; reflexivity | reflexivity |].
  eapply chain_step; [vm_compute; reflexivity | reflexivity |].
  eapply chain_root; [vm_compute; reflexivity | reflexivity].
Defined.

Lemma heap_cycle_lookup a T :
  Sample.heap_cycle !! a = Some T →
  (a = 1%positive ∧ ParentTemplate T = Some 2%positive) ∨
  (a = 2%positive ∧ ParentTemplate T = Some 1%positive).
Proof.
  unfold Sample.heap_cycle. intros Ha.
  apply lookup_insert_Some in Ha as [[<- <-]|[_ Ha]]; [by right|].
  apply lookup_singleton_Some in Ha as [<- <-]. by left.
Defined.

Lemma heap_cycle_closed : heap_closed Sample.heap_cycle.
Proof.
  intros a T p Ha Hp.
  destruct (heap_cycle_lookup _ _ Ha) as [[-> Hq]|[-> Hq]];
    rewrite Hq in Hp; injection Hp as <-; vm_compute; eauto.
Defined.

Lemma heap_cycle_endless a : ¬ ∃ n, parent_chain_ends Sample.heap_cycle a n.
Proof.
  intros [n Hn]. induction Hn as [a T Ha Hp | a T p n Ha Hp Hends IH]; [|done].
  destruct (heap_cycle_lookup _ _ Ha) as [[_ Hq]|[_ Hq]]; congruence.
Defined.

Lemma ValidateTemplate_terminates_iff_chain_ends_witness :
  (∃ out,
     ValidateTemplate (H := Externals_by_name) 3 Sample.heap_line 3%positive
       FEnemyTemplateValidationResult_default = Returns out) ∧
  ValidateTemplate (H := Externals_by_name) 1000 Sample.heap_cycle 1%positive
    FEnemyTemplateValidationResult_default = OutOfFuel.
Proof.
  split.
  - apply (proj1 (ValidateTemplate_terminates_iff_chain_ends (H := Externals_by_name)
                    Sample.heap_line 3%positive FEnemyTemplateValidationResult_default)
             2 heap_line_ends 3).
    lia.
  - apply (proj2 (proj2 (ValidateTemplate_terminates_iff_chain_ends
                           (H := Externals_by_name) Sample.heap_cycle 1%positive
                           FEnemyTemplateValidationResult_default))).
    + exact heap_cycle_closed.
    + vm_compute. eauto.
    + exact (heap_cycle_endless 1%positive).
Defined.

(** ** The inheritance chain *)

(** The constructor leaves the dirty flag up, and no parent. *)
Example UEnemyTemplate_new_is_dirty :
  bNeedsInheritanceChainUpdate UEnemyTemplate_new = true ∧
  ParentTemplate UEnemyTemplate_new = None.
Proof. done. Qed.

Section loop_rule.
Variable h : Heap.
Variable J : list TemplatePtr → option TemplatePtr → Prop.
Hypothesis J_step :
  ∀ Chain c T,
    J Chain (Some c) → c ∉ Chain → h !! c = Some T →
    J (Chain ++ [c]) (ParentTemplate T).

(** A property kept by one iteration holds when the loop is left, and the
    loop is left either because [Current] is null or because [Current] is
    already in the chain. *)
Lemma InheritanceChain_loop_rule fuel Chain Current res :
  J Chain Current →
  Chain_Contains Chain Current = false →
  InheritanceChain_loop fuel h Chain Current = Returns res →
  ∃ Current',
    J res Current' ∧ (Current' = None ∨ Chain_Contains res Current' = true).
Proof using J_step.
  revert Chain Current. induction fuel as [|fuel IH]; intros Chain [c|] HJ Hnc;
    simpl; try discriminate.
  - intros [= <-]. eauto.
  - unfold deref. destruct (h !! c) as [T|] eqn:Hc; simpl; [|discriminate].
    simpl in Hnc. apply bool_decide_eq_false in Hnc.
    pose proof (J_step _ _ _ HJ Hnc Hc) as HJ'.
    destruct (Chain_Contains (Chain ++ [c]) (ParentTemplate T)) eqn:Hcont.
    + intros [= <-]. eauto.
    + by apply IH.
  - intros [= <-]. eauto.
Qed.
End loop_rule.

Lemma InheritanceChain_loop_prefix fuel h Chain Current res :
  InheritanceChain_loop fuel h Chain Current = Returns res → Chain `prefix_of` res.
Proof.
  revert Chain Current. induction fuel as [|fuel IH]; intros Chain [c|]; simpl;
    try discriminate; try (by intros [= <-]).
  destruct (deref h c) as [T| |]; simpl; try discriminate.
  destruct (Chain_Contains _ _).
  - intros [= <-]. by apply prefix_app_r.
  - intros Hl%IH. etrans; [|exact Hl]. by apply prefix_app_r.
Qed.

(** The loop makes exactly [length res - length Chain] iterations: any
    budget of at least that many gives the same return. *)
Lemma InheritanceChain_loop_fuel fuel fuel' h Chain Current res :
  InheritanceChain_loop fuel h Chain Current = Returns res →
  length res - length Chain ≤ fuel' →
  InheritanceChain_loop fuel' h Chain Current = Returns res.
Proof.
  revert fuel' Chain Current.
  induction fuel as [|fuel IH]; intros fuel' Chain [c|]; simpl; try discriminate.
  - intros [= <-] _. by destruct fuel'.
  - intros Hl Hle.
    assert (length (Chain ++ [c]) ≤ length res) as Hlen.
    { destruct (deref h c) as [T| |]; simpl in Hl; try discriminate.
      destruct (Chain_Contains _ _).
      - by injection Hl as <-.
      - apply InheritanceChain_loop_prefix, prefix_length in Hl. done. }
    rewrite length_app in Hlen. simpl in Hlen.
    destruct fuel' as [|fuel']; [lia|]. simpl.
    destruct (deref h c) as [T| |]; simpl in *; try discriminate.
    destruct (Chain_Contains _ _); [done|].
    apply IH; [done|]. rewrite length_app. simpl. lia.
  - intros [= <-] _. by destruct fuel'.
Qed.

(** Distinct live templates are at most as many as the heap holds. *)
Lemma live_NoDup_length (h : Heap) (l : list TemplatePtr) :
  NoDup l → (∀ x, x ∈ l → is_Some (h !! x)) → length l ≤ size h.
Proof.
  intros Hnd Hlive. rewrite <- size_dom. unfold size, set_size. simpl.
  apply submseteq_length, NoDup_submseteq; [done|].
  intros x Hx. apply elem_of_elements, elem_of_dom. by apply Hlive.
Qed.

(** In a closed heap the loop returns once the budget covers the templates
    not yet in the chain. *)
Lemma InheritanceChain_loop_returns h :
  heap_closed h →
  ∀ fuel Chain c,
    is_Some (h !! c) → c ∉ Chain → NoDup Chain →
    (∀ x, x ∈ Chain → is_Some (h !! x)) →
    size h ≤ fuel + length Chain →
    ∃ res, InheritanceChain_loop fuel h Chain (Some c) = Returns res.
Proof.
  intros Hclosed. induction fuel as [|fuel IH]; intros Chain c [T Hc] Hnc Hnd Hlive Hsz.
  - assert (length (c :: Chain) ≤ size h); [|simpl in *; lia].
    apply live_NoDup_length; [by constructor|].
    intros x [->|Hx]%elem_of_cons; eauto.
  - simpl. unfold deref. rewrite Hc. simpl.
    destruct (ParentTemplate T) as [p|] eqn:Hp; simpl.
    + case_bool_decide as Hin; [eauto|].
      apply IH.
      * by eapply Hclosed.
      * done.
      * apply NoDup_app. split; [done|]. split; [|apply NoDup_singleton].
        intros x Hx ->%list_elem_of_singleton. done.
      * intros x [Hx| ->%list_elem_of_singleton]%elem_of_app; eauto.
      * rewrite length_app. simpl. lia.
    + destruct fuel; eauto.
Qed.

Lemma chain_state_init h start : chain_state h start [] (Some start).
Proof.
  split; [constructor|]. split; [by intros x ?%elem_of_nil|].
  split; [by intros c [= <-]|]. split; [by intros x y ?%elem_of_nil|].
  split; [by intros i x y ?|done].
Qed.

Lemma chain_state_step h start Chain c T :
  chain_state h start Chain (Some c) → c ∉ Chain → h !! c = Some T →
  chain_state h start (Chain ++ [c]) (ParentTemplate T).
Proof.
  intros (Hnd & Hreach & Hcur & Hclosed & Hlinked & Hlast) Hnc Hc.
  assert (Hrc : reaches h start c) by eauto.
  split; [|split; [|split; [|split; [|split]]]].
  - apply NoDup_app. split; [done|]. split; [|apply NoDup_singleton].
    by intros x Hx ->%list_elem_of_singleton.
  - intros x [Hx| ->%list_elem_of_singleton]%elem_of_app; eauto.
  - intros p Hp. eapply rtc_r; [exact Hrc|]. by exists T.
  - intros x y [Hx| ->%list_elem_of_singleton]%elem_of_app Hxy.
    + left. apply elem_of_app.
      destruct (Hclosed x y Hx Hxy) as [Hy | [= ->]]; [by left|].
      right. by apply list_elem_of_singleton.
    + right. destruct Hxy as (T' & HT' & Hp). congruence.
  - intros i x y Hx Hy.
    destruct (decide (S i < length Chain)) as [Hlt|Hge].
    + rewrite lookup_app_l in Hx by lia. rewrite lookup_app_l in Hy by lia. eauto.
    + assert (S i = length Chain) as Hi.
      { apply lookup_lt_Some in Hy. rewrite length_app in Hy. simpl in Hy. lia. }
      rewrite lookup_app_l in Hx by lia.
      rewrite lookup_app_r, Hi, Nat.sub_diag in Hy by lia. injection Hy as <-.
      apply (Hlast x c); [|done]. rewrite last_lookup, <- Hi. done.
  - intros x p Hx Hp. rewrite last_snoc in Hx. injection Hx as <-. by exists T.
Qed.

Lemma InheritanceChain_loop_head fuel h c res :
  InheritanceChain_loop fuel h [] (Some c) = Returns res → head res = Some c.
Proof.
  destruct fuel as [|fuel]; simpl; [discriminate|].
  destruct (deref h c) as [T| |]; simpl; try discriminate.
  destruct (Chain_Contains _ _).
  - by intros [= <-].
  - intros [k ->]%InheritanceChain_loop_prefix. done.
Qed.

(** What the loop returns when it is started on an empty chain. *)
Lemma InheritanceChain_loop_result fuel h this res :
  InheritanceChain_loop fuel h [] (Some this) = Returns res →
  head res = Some this ∧
  NoDup res ∧
  (∀ b, b ∈ res ↔ reaches h this b) ∧
  linked h res ∧
  (∀ x y, last res = Some x → parent_of h x y → y ∈ res).
Proof.
  intros Hloop.
  pose proof (InheritanceChain_loop_head _ _ _ _ Hloop) as Hhead.
  destruct (InheritanceChain_loop_rule h (chain_state h this)
              (chain_state_step h this) fuel [] (Some this) res)
    as (cur & (Hnd & Hreach & _ & Hclosed & Hlinked & _) & Hexit);
    [apply chain_state_init | done | done |].
  assert (Hparents : ∀ x y, x ∈ res → parent_of h x y → y ∈ res).
  { intros x y Hx Hxy. destruct (Hclosed x y Hx Hxy) as [Hy| ->]; [done|].
    destruct Hexit as [[=]|Hc]. simpl in Hc. by apply bool_decide_eq_true in Hc. }
  split; [done|]. split; [done|]. split; [|split; [done|]].
  - intros b. split; [by apply Hreach|]. revert b.
    apply (rtc_ind_r (λ b, b ∈ res)).
    + destruct res; [done|]. injection Hhead as ->. by left.
    + intros y z _ Hyz Hy. by eapply Hparents.
  - intros x y Hx. apply Hparents. rewrite last_lookup in Hx.
    by eapply list_elem_of_lookup_2.
Qed.

(** C5. On a heap without dangling parent pointers, a call of
    [GetInheritanceChain] that has to compute the chain (the dirty flag is
    up, as the constructor leaves it) returns, for every parent graph,
    cyclic ones included. The chain starts with the template itself, lists
    each template followed by its parent, holds no template twice, and
    stops where the next parent is absent or already listed; its elements
    are exactly the templates reachable through parent pointers, so the
    loop makes N iterations, N being the number of distinct reachable
    templates, and any budget of at least N steps is enough. A template
    without parent has the chain of just itself. The call leaves the chain
    in the cache, and the next call returns it from there. *)
Theorem GetInheritanceChain_terminates_without_repeats
    (h : Heap) (this : TemplatePtr) (T : UEnemyTemplate) :
  heap_closed h →
  h !! this = Some T →
  bNeedsInheritanceChainUpdate T = true →
  ∃ Chain,
    (∀ fuel, length Chain ≤ fuel →
       ∃ h', GetInheritanceChain fuel h this = Returns (Chain, h') ∧
             ∀ fuel', GetInheritanceChain fuel' h' this = Returns (Chain, h')) ∧
    head Chain = Some this ∧
    (ParentTemplate T = None → Chain = [this]) ∧
    NoDup Chain ∧
    linked h Chain ∧
    (∀ x y, last Chain = Some x → parent_of h x y → y ∈ Chain) ∧
    (∀ b, b ∈ Chain ↔ reaches h this b) ∧
    (∀ Reachable,
       NoDup Reachable → (∀ b, b ∈ Reachable ↔ reaches h this b) →
       length Chain = length Reachable).
Proof.
  intros Hclosed Hthis Hdirty.
  destruct (InheritanceChain_loop_returns h Hclosed (size h) [] this)
    as [Chain Hloop]; [eauto | by intros ?%elem_of_nil | constructor
                       | by intros x ?%elem_of_nil | simpl; lia |].
  destruct (InheritanceChain_loop_result _ _ _ _ Hloop)
    as (Hhead & Hnd & Hmem & Hlinked & Hlast).
  exists Chain. split; [|split; [done|split; [|split; [done|split; [done|split;
    [done|split; [done|]]]]]]].
  - intros fuel Hfuel. unfold GetInheritanceChain, deref. rewrite Hthis. simpl.
    rewrite Hdirty.
    rewrite (InheritanceChain_loop_fuel _ fuel _ _ _ _ Hloop) by (simpl; lia).
    simpl. eexists. split; [done|].
    intros fuel'. unfold GetInheritanceChain, deref.
    rewrite lookup_insert_eq. done.
  - intros Hroot.
    pose proof (InheritanceChain_loop_fuel _ (S (length Chain)) _ _ _ _ Hloop) as Hl.
    simpl in Hl. unfold deref in Hl. rewrite Hthis in Hl. simpl in Hl.
    rewrite Hroot in Hl. simpl in Hl.
    destruct (length Chain); (injection Hl as <-; [done|lia]).
  - intros Reachable Hnd' Hmem'. apply Permutation_length, NoDup_Permutation; try done.
    intros b. by rewrite Hmem, Hmem'.
Qed.

(** The cycle 1 ⇄ 2: the chain of the template at 1 is [1; 2]. *)
Lemma GetInheritanceChain_terminates_without_repeats_witness :
  ∃ Chain,
    (∀ fuel, length Chain ≤ fuel →
       ∃ h', GetInheritanceChain fuel Sample.heap_cycle 1%positive = Returns (Chain, h') ∧
             ∀ fuel', GetInheritanceChain fuel' h' 1%positive = Returns (Chain, h')) ∧
    head Chain = Some 1%positive ∧
    (ParentTemplate (Sample.with_parent Sample.Goblin (Some 2%positive)) = None →
     Chain = [1%positive]) ∧
    NoDup Chain ∧
    linked Sample.heap_cycle Chain ∧
    (∀ x y, last Chain = Some x → parent_of Sample.heap_cycle x y → y ∈ Chain) ∧
    (∀ b, b ∈ Chain ↔ reaches Sample.heap_cycle 1%positive b) ∧
    (∀ Reachable,
       NoDup Reachable →
       (∀ b, b ∈ Reachable ↔ reaches Sample.heap_cycle 1%positive b) →
       length Chain = length Reachable).
Proof.
  apply (GetInheritanceChain_terminates_without_repeats Sample.heap_cycle 1%positive
           (Sample.with_parent Sample.Goblin (Some 2%positive))).
  - exact heap_cycle_closed.
  - vm_compute. reflexivity.
  - reflexivity.
Defined.

(** The same call evaluated: two iterations, and the cache members of the
    template at 1 now hold the chain with the dirty flag down. *)
Example GetInheritanceChain_on_cycle :
  match GetInheritanceChain 2 Sample.heap_cycle 1%positive with
  | Returns (Chain, h') =>
      Chain = [1%positive; 2%positive] ∧
      (CachedInheritanceChain <$> h' !! 1%positive) = Some [1%positive; 2%positive] ∧
      (bNeedsInheritanceChainUpdate <$> h' !! 1%positive) = Some false
  | _ => False
  end ∧
  GetInheritanceChain 1 Sample.heap_cycle 1%positive = OutOfFuel.
Proof. split; [vm_compute; repeat split | vm_compute; reflexivity]. Qed.

(** ** A template without a skeletal mesh *)

Lemma ValidateLocal_missing_mesh `{Externals} T r0 :
  IsValid (SkeletalMesh (VisualCustomization T)) = false →
  ValidateLocal T r0 = (false, AddError r0 Msg.NoSkeletalMesh).
Proof. intros Hmesh. unfold ValidateLocal, ValidateVisualAssets. by rewrite Hmesh. Qed.

(** C6, as stated, fails: [Ghost] has no skeletal mesh, and validating it
    under its invalid parent [Brute] leaves three errors, the parent's
    missing behaviour tree among them. *)
Lemma missing_mesh_not_the_only_error :
  ¬ (∀ (E : Externals) fuel h this T r b res,
       h !! this = Some T →
       IsValid (SkeletalMesh (VisualCustomization T)) = false →
       ValidateTemplate fuel h this r = Returns (b, res) →
       b = false ∧
       ValidationErrors res = [Msg.NoSkeletalMesh] ∧
       ∀ e, e ∈ ValidationErrors res → ¬ is_AI_or_ability_error e).
Proof.
  intros Hclaim.
  destruct (Hclaim Externals_by_name 2 Sample.heap_ghost 2%positive Sample.Ghost
              FEnemyTemplateValidationResult_default false Sample.GhostResult)
    as (_ & Herrors & _); [vm_compute; reflexivity .. |].
  discriminate Herrors.
Qed.

(** What a call on a template without a skeletal mesh has left when it
    returns. *)
Lemma ValidateTemplate_missing_mesh_on_return `{Externals}
    (fuel : nat) (h : Heap) (this : TemplatePtr) (T : UEnemyTemplate)
    (r : FEnemyTemplateValidationResult) (b : bool)
    (res : FEnemyTemplateValidationResult) :
  h !! this = Some T →
  IsValid (SkeletalMesh (VisualCustomization T)) = false →
  ValidateTemplate (S fuel) h this r = Returns (b, res) →
  b = false ∧ bIsValid res = false ∧
  (∃ r0,
     res = AddError r0 Msg.NoSkeletalMesh ∧
     match ParentTemplate T with
     | None => r0 = ValidateIdentity T (Clear r)
     | Some p =>
         ∃ P ok pr,
           h !! p = Some P ∧
           ValidateTemplate fuel h p FEnemyTemplateValidationResult_default
             = Returns (ok, pr) ∧
           r0 = MergeParentResult P ok pr (ValidateIdentity T (Clear r)) ∧
           (ok = true → ValidationErrors r0 = ValidationErrors (ValidateIdentity T (Clear r))) ∧
           (ok = false →
            ValidationErrors r0 =
              ValidationErrors (ValidateIdentity T (Clear r))
                ++ Msg.InvalidParentTemplate (TemplateName P) :: ValidationErrors pr)
     end) ∧
  (ValidationErrors (ValidateIdentity T (Clear r)) =
     if FName_IsNone (TemplateName T) then [Msg.NoTemplateName] else []) ∧
  (FName_IsNone (TemplateName T) = false →
   (∀ p, ParentTemplate T = Some p →
         ∃ pr, ValidateTemplate fuel h p FEnemyTemplateValidationResult_default
                 = Returns (true, pr)) →
   ValidationErrors res = [Msg.NoSkeletalMesh]) ∧
  (∀ T' r0,
     IsValid (SkeletalMesh (VisualCustomization T')) = true →
     IsValid (AnimationBlueprint (VisualCustomization T')) = false →
     ValidateVisualAssets T' r0 = (true, AddWarning r0 Msg.NoAnimBP) ∧
     bIsValid (AddWarning r0 Msg.NoAnimBP) = bIsValid r0 ∧
     ValidationErrors (AddWarning r0 Msg.NoAnimBP) = ValidationErrors r0).
Proof.
  intros Hthis Hmesh. rewrite ValidateTemplate_S. unfold deref. rewrite Hthis. simpl.
  assert (Hid : ValidationErrors (ValidateIdentity T (Clear r)) =
                if FName_IsNone (TemplateName T) then [Msg.NoTemplateName] else []).
  { unfold ValidateIdentity.
    by destruct (FName_IsNone _), (FText_IsEmpty _). }
  assert (Hanim : ∀ T' r0,
     IsValid (SkeletalMesh (VisualCustomization T')) = true →
     IsValid (AnimationBlueprint (VisualCustomization T')) = false →
     ValidateVisualAssets T' r0 = (true, AddWarning r0 Msg.NoAnimBP) ∧
     bIsValid (AddWarning r0 Msg.NoAnimBP) = bIsValid r0 ∧
     ValidationErrors (AddWarning r0 Msg.NoAnimBP) = ValidationErrors r0).
  { intros T' r0 Hm Ha. unfold ValidateVisualAssets. by rewrite Hm, Ha. }
  destruct (ParentTemplate T) as [p|] eqn:Hp; simpl.
  - destruct (ValidateTemplate fuel h p _) as [[ok pr]| |] eqn:Hrec; simpl;
      try discriminate.
    destruct (h !! p) as [P|] eqn:HP; simpl; [|discriminate].
    rewrite ValidateLocal_missing_mesh by done. intros [= <- <-].
    split; [done|]. split; [done|]. split; [|split; [done|split; [|done]]].
    + eexists. split; [done|]. exists P, ok, pr.
      split; [done|]. split; [done|]. split; [done|].
      split; intros ->; simpl; [done|]. by rewrite <- app_assoc.
    + intros Hname Hparent. destruct (Hparent p eq_refl) as [pr' Hpr'].
      rewrite Hpr' in Hrec. injection Hrec as <- <-.
      unfold MergeParentResult. simpl. by rewrite Hid, Hname.
  - rewrite ValidateLocal_missing_mesh by done. intros [= <- <-].
    split; [done|]. split; [done|]. split; [|split; [done|split; [|done]]].
    + eexists. split; done.
    + intros Hname _. simpl. by rewrite Hid, Hname.
Qed.

(** C6, amended. For every template without a skeletal mesh whose parent
    chain is finite and acyclic (it reaches a root after [n] steps),
    [ValidateTemplate] returns, within [n + 1] activations, and returns
    invalid. ["Skeletal mesh is required"] is the last error of the result: the
    result is what the identity and parent steps left, plus that one error,
    and the template's own AI and ability checks add nothing. What the
    earlier steps recorded stays: a missing template name, and for an
    invalid parent the wrapping error followed by the parent's own errors.
    When the template is named and its parent, if it has one, is valid, the
    error list is exactly that one error. A missing animation blueprint
    under a present mesh adds one warning and nothing else. *)
Theorem ValidateTemplate_missing_mesh `{Externals}
    (fuel n : nat) (h : Heap) (this : TemplatePtr) (T : UEnemyTemplate)
    (r : FEnemyTemplateValidationResult) :
  h !! this = Some T →
  IsValid (SkeletalMesh (VisualCustomization T)) = false →
  parent_chain_ends h this n →
  n < S fuel →
  ∃ res,
    ValidateTemplate (S fuel) h this r = Returns (false, res) ∧
    bIsValid res = false ∧
    (∃ r0,
       res = AddError r0 Msg.NoSkeletalMesh ∧
       match ParentTemplate T with
       | None => r0 = ValidateIdentity T (Clear r)
       | Some p =>
           ∃ P ok pr,
             h !! p = Some P ∧
             ValidateTemplate fuel h p FEnemyTemplateValidationResult_default
               = Returns (ok, pr) ∧
             r0 = MergeParentResult P ok pr (ValidateIdentity T (Clear r)) ∧
             (ok = true →
              ValidationErrors r0 = ValidationErrors (ValidateIdentity T (Clear r))) ∧
             (ok = false →
              ValidationErrors r0 =
                ValidationErrors (ValidateIdentity T (Clear r))
                  ++ Msg.InvalidParentTemplate (TemplateName P) :: ValidationErrors pr)
       end) ∧
    (ValidationErrors (ValidateIdentity T (Clear r)) =
       if FName_IsNone (TemplateName T) then [Msg.NoTemplateName] else []) ∧
    (FName_IsNone (TemplateName T) = false →
     (∀ p, ParentTemplate T = Some p →
           ∃ pr, ValidateTemplate fuel h p FEnemyTemplateValidationResult_default
                   = Returns (true, pr)) →
     ValidationErrors res = [Msg.NoSkeletalMesh]) ∧
    (∀ T' r0,
       IsValid (SkeletalMesh (VisualCustomization T')) = true →
       IsValid (AnimationBlueprint (VisualCustomization T')) = false →
       ValidateVisualAssets T' r0 = (true, AddWarning r0 Msg.NoAnimBP) ∧
       bIsValid (AddWarning r0 Msg.NoAnimBP) = bIsValid r0 ∧
       ValidationErrors (AddWarning r0 Msg.NoAnimBP) = ValidationErrors r0).
Proof.
  intros Hthis Hmesh Hends Hfuel.
  destruct (ValidateTemplate_returns_on_chain h this n Hends (S fuel) r Hfuel)
    as [[b res] Hv].
  destruct (ValidateTemplate_missing_mesh_on_return fuel h this T r b res
              Hthis Hmesh Hv) as (-> & Hrest).
  exists res. split; [exact Hv | exact Hrest].
Qed.

(** [Ghost] sits one step above the root [Brute]. *)
Lemma heap_ghost_ends : parent_chain_ends Sample.heap_ghost 2%positive 1.
Proof.
  eapply chain_step; [vm_compute; reflexivity | reflexivity |].
  eapply chain_root; [vm_compute; reflexivity | reflexivity].
Defined.

Lemma ValidateTemplate_missing_mesh_witness :
  ValidateTemplate (H := Externals_by_name) 2 Sample.heap_ghost 2%positive
    FEnemyTemplateValidationResult_default = Returns (false, Sample.GhostResult) ∧
  bIsValid Sample.GhostResult = false ∧
  ∃ r0, Sample.GhostResult = AddError r0 Msg.NoSkeletalMesh.
Proof.
  destruct (ValidateTemplate_missing_mesh (H := Externals_by_name) 1 1
              Sample.heap_ghost 2%positive Sample.Ghost
              FEnemyTemplateValidationResult_default)
    as (res & Hv & Hflag & (r0 & Hres & _) & _);
    [vm_compute; reflexivity | reflexivity | exact heap_ghost_ends | lia |].
  assert (res = Sample.GhostResult) as ->.
  { vm_compute in Hv. by injection Hv as <-. }
  split; [exact Hv|]. split; [exact Hflag|]. exists r0. exact Hres.
Defined.

(** A template with neither name nor mesh: two errors, the mesh error last;
    and the named, parentless [Goblin] stripped of its mesh: that error
    alone. *)
Example ValidateTemplate_nameless_and_meshless :
  ValidateTemplate (H := Externals_by_name) 1 Sample.heap_nameless 1%positive
    FEnemyTemplateValidationResult_default
    = Returns (false, MkResult false [Msg.NoTemplateName; Msg.NoSkeletalMesh] []) ∧
  ValidateTemplate (H := Externals_by_name) 1
    {[ 1%positive :=
         MkTemplate "Goblin" (FText_FromString "Goblin") FText_Empty None []
           FEnemyBaseStats_default Sample.NoBehaviorTreeAI Sample.NoMeshVisuals
           [FEnemyAbilityDefinition_default] [] true ]}
    1%positive FEnemyTemplateValidationResult_default
    = Returns (false, MkResult false [Msg.NoSkeletalMesh] []).
Proof. split; vm_compute; reflexivity. Qed.

(** ** [ValidateConfiguration] *)

Lemma ValidateStatMultipliers_first l r :
  ValidateStatMultipliers l r =
    match find bad_multiplier l with
    | Some StatMod =>
        (false, AddError r (Msg.InvalidStatMultiplier StatMod.2 StatMod.1))
    | None => (true, r)
    end.
Proof.
  induction l as [|[k v] l IH]; simpl; [done|].
  rewrite IH. unfold bad_multiplier at 2. simpl.
  destruct (Float32.leb v Float32.zero); reflexivity.
Qed.

Lemma ValidateModifiedAbilities_first T l r :
  ValidateModifiedAbilities T l r =
    match find (bad_ability_key T) l with
    | Some AbilityMod => (false, AddError r (ability_key_error AbilityMod))
    | None => (true, r)
    end.
Proof.
  induction l as [|[k d] l IH]; simpl; [done|].
  rewrite IH. unfold bad_ability_key at 2. cbn [fst].
  destruct (FName_IsNone k) eqn:Hk; cbn [orb].
  - unfold ability_key_error. cbn [fst]. by rewrite Hk.
  - destruct (AbilityFound (Abilities T) k); cbn [negb]; [done|].
    unfold ability_key_error. cbn [fst]. by rewrite Hk.
Qed.

(** C1, as stated, fails: with multipliers 0 for Health and -1 for Damage on
    the valid [Goblin], the result holds the error for Health only. *)
Lemma ValidateConfiguration_not_one_error_per_bad_entry :
  ¬ (∀ (E : Externals) fuel h cfg a T r r0 b res,
       IsValid (BaseTemplate cfg) = true →
       Get (BaseTemplate cfg) = Some a →
       h !! a = Some T →
       ValidateTemplate fuel h a r = Returns (true, r0) →
       ValidateConfiguration fuel h cfg r = Returns (b, res) →
       (∀ StatMod,
          StatMod ∈ StatMultipliers (Modifications cfg) →
          Float32.leb StatMod.2 Float32.zero = true →
          Msg.InvalidStatMultiplier StatMod.2 StatMod.1 ∈ ValidationErrors res) ∧
       (∀ AbilityMod,
          AbilityMod ∈ ModifiedAbilities (Modifications cfg) →
          bad_ability_key T AbilityMod = true →
          ability_key_error AbilityMod ∈ ValidationErrors res)).
Proof.
  intros Hclaim.
  destruct (Hclaim Externals_by_name 1 Sample.heap_goblin
              (Sample.Configuration_of
                 [("Health", Float32.zero); ("Damage", Float32.of_Z (-1))] [])
              1%positive Sample.Goblin FEnemyTemplateValidationResult_default
              (MkResult true [] []) false
              (MkResult false [Msg.InvalidStatMultiplier Float32.zero "Health"] []))
    as [Hstats _]; [vm_compute; reflexivity .. |].
  specialize (Hstats ("Damage", Float32.of_Z (-1))).
  simpl in Hstats.
  assert (Hin : Msg.InvalidStatMultiplier (Float32.of_Z (-1)) "Damage"
                ∈ [Msg.InvalidStatMultiplier Float32.zero "Health"]).
  { apply Hstats; [|vm_compute; reflexivity]. right. left. }
  apply list_elem_of_singleton in Hin. discriminate Hin.
Qed.

(** C1, amended. For a configuration whose base template passes
    [ValidateTemplate], [ValidateConfiguration] walks the stat multipliers
    and then the modified-ability keys in iteration order and returns at the
    first entry that fails: the first multiplier [<= 0] if there is one
    (its error names the value and the stat key), otherwise the first key
    that is [None] or names no ability of the base template. The result is
    then invalid and holds exactly that one error; entries after the first
    failing one are not examined. With no failing entry the result of the
    template validation is returned as valid. *)
Theorem ValidateConfiguration_stops_at_first_bad_entry `{Externals}
    (fuel : nat) (h : Heap) (cfg : UEnemyConfiguration) (a : TemplatePtr)
    (T : UEnemyTemplate) (r r' r0 : FEnemyTemplateValidationResult) :
  IsValid (BaseTemplate cfg) = true →
  Get (BaseTemplate cfg) = Some a →
  h !! a = Some T →
  ValidateTemplate fuel h a r' = Returns (true, r0) →
  ValidationErrors r0 = [] ∧
  ValidateConfiguration fuel h cfg r = Returns
    match find bad_multiplier (StatMultipliers (Modifications cfg)) with
    | Some StatMod =>
        (false,
         MkResult false [Msg.InvalidStatMultiplier StatMod.2 StatMod.1]
           (ValidationWarnings r0))
    | None =>
        match find (bad_ability_key T) (ModifiedAbilities (Modifications cfg)) with
        | Some AbilityMod =>
            (false,
             MkResult false [ability_key_error AbilityMod] (ValidationWarnings r0))
        | None => (true, r0)
        end
    end.
Proof.
  intros Hvalid Hget Ha Hv.
  assert (Herr : ValidationErrors r0 = []).
  { destruct (ValidateTemplate_sound _ _ _ _ _ _ Hv) as [Hb Htr].
    destruct (ValidationErrors r0) eqn:He; [done|].
    assert (bIsValid r0 = false) by (apply Htr; by rewrite He).
    congruence. }
  split; [done|].
  unfold ValidateConfiguration. rewrite Hvalid, Hget. simpl.
  rewrite (ValidateTemplate_ignores_OutResult _ _ _ _ r'), Hv. simpl.
  unfold deref. rewrite Ha. simpl.
  rewrite ValidateStatMultipliers_first.
  destruct (find bad_multiplier _) as [StatMod|]; simpl.
  { unfold AddError. by rewrite Herr. }
  rewrite ValidateModifiedAbilities_first.
  destruct (find (bad_ability_key T) _) as [AbilityMod|]; simpl; [|done].
  unfold AddError. by rewrite Herr.
Qed.

Lemma ValidateConfiguration_stops_at_first_bad_entry_witness :
  ValidationErrors (MkResult true [] []) = [] ∧
  ValidateConfiguration (H := Externals_by_name) 1 Sample.heap_goblin
    (Sample.Configuration_of
       [("Health", Float32.zero); ("Damage", Float32.of_Z (-1))]
       [("Fireball", Sample.Fireball)])
    FEnemyTemplateValidationResult_default
  = Returns
      (false, MkResult false [Msg.InvalidStatMultiplier Float32.zero "Health"] []).
Proof.
  apply (ValidateConfiguration_stops_at_first_bad_entry (H := Externals_by_name)
           1 Sample.heap_goblin
           (Sample.Configuration_of
              [("Health", Float32.zero); ("Damage", Float32.of_Z (-1))]
              [("Fireball", Sample.Fireball)])
           1%positive Sample.Goblin FEnemyTemplateValidationResult_default
           FEnemyTemplateValidationResult_default (MkResult true [] []));
    vm_compute; reflexivity.
Defined.

(** C8. A configuration whose base-template reference is not valid gets
    ["No base template specified"], and one whose reference is valid but
    hands out no template gets ["Base template reference is invalid"]. In
    both cases the call returns normally, whatever the budget, the heap and
    the modifications are, with an invalid result that holds exactly that
    one error and no warning: neither the template validation nor the
    stat-multiplier or modified-ability checks take part. *)
Theorem ValidateConfiguration_without_base_template `{Externals}
    (fuel : nat) (h : Heap) (cfg : UEnemyConfiguration)
    (r : FEnemyTemplateValidationResult) :
  (IsValid (BaseTemplate cfg) = false →
   ValidateConfiguration fuel h cfg r =
     Returns (false, MkResult false [Msg.NoBaseTemplate] [])) ∧
  (IsValid (BaseTemplate cfg) = true → Get (BaseTemplate cfg) = None →
   ValidateConfiguration fuel h cfg r =
     Returns (false, MkResult false [Msg.InvalidBaseTemplate] [])).
Proof.
  unfold ValidateConfiguration. split.
  - by intros ->.
  - by intros -> ->.
Qed.

Lemma ValidateConfiguration_without_base_template_witness :
  ValidateConfiguration (H := Externals_by_name) 0 ∅
    (MkConfiguration SoftNull
       (Sample.Modification_of [("Health", Float32.zero)]
          [("Fireball", Sample.Fireball)]))
    Sample.GhostResult
  = Returns (false, MkResult false [Msg.NoBaseTemplate] []) ∧
  ValidateConfiguration (H := Externals_by_name) 0 ∅
    (MkConfiguration (MkSoftObjectPtr true None)
       (Sample.Modification_of [("Health", Float32.zero)]
          [("Fireball", Sample.Fireball)]))
    Sample.GhostResult
  = Returns (false, MkResult false [Msg.InvalidBaseTemplate] []).
Proof.
  split.
  - apply (proj1 (ValidateConfiguration_without_base_template
                    (H := Externals_by_name) 0 ∅ _ Sample.GhostResult)).
    reflexivity.
  - apply (proj2 (ValidateConfiguration_without_base_template
                    (H := Externals_by_name) 0 ∅ _ Sample.GhostResult));
      reflexivity.
Defined.

(** ** [ApplyToInstance] *)

Lemma stat_read_write_eq f v s : stat_read f (stat_write f v s) = v.
Proof. by destruct f. Qed.

Lemma stat_read_write_ne f g v s : f ≠ g → stat_read g (stat_write f v s) = stat_read g s.
Proof. by destruct f, g. Qed.

Lemma ApplyStatMultiplier_read `{Externals} f s StatMod :
  stat_read f (ApplyStatMultiplier s StatMod) =
    if decide (GetStatValuePtr StatMod.1 = Some f)
    then Float32.mul (stat_read f s) StatMod.2
    else stat_read f s.
Proof.
  unfold ApplyStatMultiplier.
  destruct (GetStatValuePtr StatMod.1) as [g|] eqn:Hg.
  - case_decide as Hd.
    + injection Hd as ->. apply stat_read_write_eq.
    + apply stat_read_write_ne. congruence.
  - by case_decide.
Qed.

(** Each field ends up multiplied by the multipliers that resolve to it,
    first to last, and by nothing else. *)
Lemma ApplyStatMultipliers_read `{Externals} f l s :
  stat_read f (fold_left ApplyStatMultiplier l s) =
    fold_left Float32.mul (multipliers_for f l) (stat_read f s).
Proof.
  revert s. induction l as [|StatMod l IH]; intros s; simpl; [done|].
  rewrite IH, ApplyStatMultiplier_read. unfold multipliers_for. simpl.
  by case_decide.
Qed.

Lemma multipliers_for_none `{Externals} f l :
  (∀ StatMod, StatMod ∈ l → GetStatValuePtr StatMod.1 ≠ Some f) →
  multipliers_for f l = [].
Proof.
  induction l as [|StatMod l IH]; intros Hl; [done|].
  unfold multipliers_for. simpl. case_decide as Hd.
  - exfalso. by apply (Hl StatMod); [left|].
  - apply IH. intros e He. apply Hl. by right.
Qed.

Lemma multipliers_for_app `{Externals} f l1 l2 :
  multipliers_for f (l1 ++ l2) = multipliers_for f l1 ++ multipliers_for f l2.
Proof. apply omap_app. Qed.

Lemma multipliers_for_single `{Externals} f l k v :
  TMap_wf l → (k, v) ∈ l → GetStatValuePtr k = Some f →
  (∀ k' v', (k', v') ∈ l → GetStatValuePtr k' = Some f → k' = k) →
  multipliers_for f l = [v].
Proof.
  intros Hwf Hin Hk Honly.
  apply list_elem_of_split in Hin as (pre & post & ->).
  unfold TMap_wf in Hwf. rewrite fmap_app in Hwf. simpl in Hwf.
  apply NoDup_app in Hwf as (_ & Hpre & Hpost%NoDup_cons_1_1).
  change ((k, v) :: post) with ([(k, v)] ++ post).
  rewrite !multipliers_for_app.
  rewrite (multipliers_for_none f pre), (multipliers_for_none f post).
  - unfold multipliers_for. simpl. by rewrite decide_True.
  - intros [k' v'] He Hr. simpl in Hr. apply Hpost.
    rewrite <- (Honly k' v'); [|set_solver|done].
    apply list_elem_of_fmap. by exists (k', v').
  - intros [k' v'] He Hr. simpl in Hr. apply (Hpre k').
    + apply list_elem_of_fmap. by exists (k', v').
    + rewrite (Honly k' v'); [left|set_solver|done].
Qed.

Lemma ApplyStatMultipliers_skip_unresolved `{Externals} pre k v post s :
  GetStatValuePtr k = None →
  fold_left ApplyStatMultiplier (pre ++ (k, v) :: post) s =
    fold_left ApplyStatMultiplier (pre ++ post) s.
Proof.
  intros Hk. rewrite !fold_left_app. simpl.
  unfold ApplyStatMultiplier at 2. simpl. by rewrite Hk.
Qed.

(** C2. The effective stats start from the template's base stats; a
    multiplier entry whose key [GetStatValuePtr] resolves to a field
    multiplies that field (in [float] arithmetic, with no clamping whatever
    the multiplier is), an entry whose key resolves to nothing has no
    effect and raises nothing, and a field that no entry resolves to keeps
    its base value. With the keys of the map unique and one entry resolving
    to a field, the field is base times that multiplier. Without a
    modification the stats are the base stats. On the default stats
    (health 100, damage 20) the multiplier 2 for Damage gives health 100
    and damage 40; the multipliers 0 and -2 give damage 0 and -40, and it
    is [ValidateConfiguration] that reports such multipliers. *)
Theorem ApplyToInstance_multiplies_named_stats :
  (∀ (E : Externals) (T : UEnemyTemplate) (Instance : ACharacter)
     (M : FEnemyTemplateModification),
     ∃ A,
       ApplyToInstance T (Some Instance) (Some M) = Some A ∧
       (∀ f, stat_read f (FinalStats A) =
             fold_left Float32.mul (multipliers_for f (StatMultipliers M))
               (stat_read f (BaseStats T))) ∧
       (∀ f, (∀ StatMod, StatMod ∈ StatMultipliers M →
                         GetStatValuePtr StatMod.1 ≠ Some f) →
             stat_read f (FinalStats A) = stat_read f (BaseStats T)) ∧
       (∀ f k v,
          TMap_wf (StatMultipliers M) →
          (k, v) ∈ StatMultipliers M →
          GetStatValuePtr k = Some f →
          (∀ k' v', (k', v') ∈ StatMultipliers M →
                    GetStatValuePtr k' = Some f → k' = k) →
          stat_read f (FinalStats A) = Float32.mul (stat_read f (BaseStats T)) v) ∧
       (∀ pre k v post,
          StatMultipliers M = pre ++ (k, v) :: post →
          GetStatValuePtr k = None →
          FinalStats A = fold_left ApplyStatMultiplier (pre ++ post) (BaseStats T))) ∧
  (∀ (E : Externals) (T : UEnemyTemplate) (Instance : ACharacter),
     ∃ A, ApplyToInstance T (Some Instance) None = Some A ∧
          FinalStats A = BaseStats T) ∧
  (FinalStats <$>
     ApplyToInstance (H := Externals_by_name) Sample.Goblin (Some Sample.Instance)
       (Some (Sample.Modification_of [("Damage", Float32.of_Z 2)] []))) =
    Some (MkBaseStats (Float32.of_Z 100) (Float32.of_Z 40)
            (Speed FEnemyBaseStats_default) (AttackSpeed FEnemyBaseStats_default)
            (Defense FEnemyBaseStats_default) (CriticalChance FEnemyBaseStats_default)
            (CriticalMultiplier FEnemyBaseStats_default)) ∧
  (FinalStats <$>
     ApplyToInstance (H := Externals_by_name) Sample.Goblin (Some Sample.Instance)
       (Some (Sample.Modification_of [("Mana", Float32.of_Z 3)] []))) =
    Some FEnemyBaseStats_default ∧
  (Damage <$> (FinalStats <$>
     ApplyToInstance (H := Externals_by_name) Sample.Goblin (Some Sample.Instance)
       (Some (Sample.Modification_of [("Damage", Float32.zero)] [])))) =
    Some Float32.zero ∧
  (Damage <$> (FinalStats <$>
     ApplyToInstance (H := Externals_by_name) Sample.Goblin (Some Sample.Instance)
       (Some (Sample.Modification_of [("Damage", Float32.of_Z (-2))] [])))) =
    Some (Float32.of_Z (-40)) ∧
  ValidateConfiguration (H := Externals_by_name) 1 Sample.heap_goblin
    (Sample.Configuration_of [("Damage", Float32.of_Z (-2))] [])
    FEnemyTemplateValidationResult_default =
    Returns (false,
             MkResult false [Msg.InvalidStatMultiplier (Float32.of_Z (-2)) "Damage"] []) ∧
  ValidateConfiguration (H := Externals_by_name) 1 Sample.heap_goblin
    (Sample.Configuration_of [("Damage", Float32.zero)] [])
    FEnemyTemplateValidationResult_default =
    Returns (false,
             MkResult false [Msg.InvalidStatMultiplier Float32.zero "Damage"] []).
Proof.
  split; [|split; [|repeat split; vm_compute; reflexivity]].
  - intros E T Instance M. eexists. split; [reflexivity|]. simpl.
    split; [|split; [|split]].
    + intros f. apply ApplyStatMultipliers_read.
    + intros f Hnone. by rewrite ApplyStatMultipliers_read, multipliers_for_none.
    + intros f k v Hwf Hin Hk Honly.
      by rewrite ApplyStatMultipliers_read, (multipliers_for_single f _ k v).
    + intros pre k v post -> Hk. by apply ApplyStatMultipliers_skip_unresolved.
  - intros E T Instance. eexists. split; reflexivity.
Qed.

Lemma ApplyToInstance_multiplies_named_stats_witness :
  ∃ A,
    ApplyToInstance (H := Externals_by_name) Sample.Goblin (Some Sample.Instance)
      (Some (Sample.Modification_of
               [("Mana", Float32.of_Z 3); ("Damage", Float32.of_Z 2)] [])) = Some A ∧
    Damage (FinalStats A) = Float32.of_Z 40 ∧
    Health (FinalStats A) = Float32.of_Z 100 ∧
    FinalStats A =
      fold_left (ApplyStatMultiplier (H := Externals_by_name))
        [("Damage", Float32.of_Z 2)] FEnemyBaseStats_default.
Proof.
  destruct (proj1 ApplyToInstance_multiplies_named_stats Externals_by_name
              Sample.Goblin Sample.Instance
              (Sample.Modification_of
                 [("Mana", Float32.of_Z 3); ("Damage", Float32.of_Z 2)] []))
    as (A & HA & _ & Hkeep & Hmul & Hskip).
  exists A. split; [exact HA|]. split; [|split].
  - apply (Hmul StatDamage "Damage" (Float32.of_Z 2)).
    + vm_compute. apply (bool_decide_unpack _). vm_compute. exact I.
    + right. left.
    + reflexivity.
    + intros k' v' [[= -> ->]|[[= -> ->]|[]%elem_of_nil]%elem_of_cons]%elem_of_cons;
        [discriminate | reflexivity].
  - apply (Hkeep StatHealth).
    intros StatMod [->|[->|[]%elem_of_nil]%elem_of_cons]%elem_of_cons; discriminate.
  - apply (Hskip [] "Mana" (Float32.of_Z 3) [("Damage", Float32.of_Z 2)]);
      reflexivity.
Defined.

Lemma TMap_Find_elem_of {V} (m : TMap FName V) k v :
  TMap_Find m k = Some v → (k, v) ∈ m.
Proof.
  induction m as [|[k' v'] m IH]; simpl; [done|].
  case_bool_decide as Hk.
  - intros [= ->]. subst. left.
  - intros Hf. right. by apply IH.
Qed.

Lemma SelectAbility_spec Modification Ability :
  SelectAbility Modification Ability =
    match Modification with
    | Some M =>
        match TMap_Find (ModifiedAbilities M) (AbilityName Ability) with
        | Some Override => Override
        | None => Ability
        end
    | None => Ability
    end.
Proof.
  unfold SelectAbility, TMap_Contains. destruct Modification as [M|]; [|done].
  by destruct (TMap_Find _ _).
Qed.

(** C3. On an instance with an ability system, the definitions handed to
    [ApplyAbility] are the template's abilities, one for one and in the
    template's order: an ability whose name is a key of
    [ModifiedAbilities] goes out as the override stored under that key, any
    other ability goes out unchanged. An entry of [ModifiedAbilities] is
    only ever reached through the name of a template ability, so an entry
    whose key names no template ability is never applied and the list never
    grows. With the template abilities [BasicAttack] and a modification
    keyed "Fireball", [BasicAttack] alone is applied, unmodified, and
    [ValidateConfiguration] reports "Modification targets unknown ability
    Fireball". *)
Theorem ApplyToInstance_applies_template_abilities `{Externals}
    (T : UEnemyTemplate) (Instance : ACharacter)
    (Modification : option FEnemyTemplateModification) :
  HasAbilitySystemComponent Instance = true →
  ∃ A,
    ApplyToInstance T (Some Instance) Modification = Some A ∧
    length (AppliedAbilities A) = length (Abilities T) ∧
    (∀ i Ability,
       Abilities T !! i = Some Ability →
       AppliedAbilities A !! i =
         Some match Modification with
              | Some M =>
                  match TMap_Find (ModifiedAbilities M) (AbilityName Ability) with
                  | Some Override => Override
                  | None => Ability
                  end
              | None => Ability
              end) ∧
    (∀ Applied,
       Applied ∈ AppliedAbilities A →
       Applied ∈ Abilities T ∨
       ∃ M Ability,
         Modification = Some M ∧ Ability ∈ Abilities T ∧
         (AbilityName Ability, Applied) ∈ ModifiedAbilities M) ∧
    ((∀ M, Modification = Some M →
           ∀ Ability, Ability ∈ Abilities T →
                      TMap_Find (ModifiedAbilities M) (AbilityName Ability) = None) →
     AppliedAbilities A = Abilities T) ∧
    AppliedAbilities
      <$> ApplyToInstance (H := Externals_by_name) Sample.Goblin (Some Sample.Instance)
            (Some (Sample.Modification_of [] [("Fireball", Sample.Fireball)]))
      = Some [Sample.BasicAttack] ∧
    ValidateConfiguration (H := Externals_by_name) 1 Sample.heap_goblin
      (Sample.Configuration_of [] [("Fireball", Sample.Fireball)])
      FEnemyTemplateValidationResult_default
      = Returns (false,
                 MkResult false [Msg.UnknownAbilityModification "Fireball"] []).
Proof.
  intros Hasc. unfold ApplyToInstance. rewrite Hasc. eexists. split; [reflexivity|].
  simpl. split; [by rewrite length_map|].
  split; [|split; [|split; [|split; vm_compute; reflexivity]]].
  - intros i Ability Hi. rewrite list_lookup_fmap, Hi. simpl.
    by rewrite SelectAbility_spec.
  - intros Applied (Ability & -> & Hin)%list_elem_of_fmap.
    rewrite SelectAbility_spec. destruct Modification as [M|]; [|by left].
    destruct (TMap_Find _ _) as [Override|] eqn:Hfind; [|by left].
    right. exists M, Ability. split; [done|]. split; [done|].
    by apply TMap_Find_elem_of.
  - intros Hnone. rewrite <- (map_id (Abilities T)) at 2.
    apply map_ext_in. intros Ability Hin%list_elem_of_In.
    rewrite SelectAbility_spec. destruct Modification as [M|]; [|done].
    by rewrite (Hnone M eq_refl Ability Hin).
Qed.

(** The override for "BasicAttack" replaces the template's definition in
    place. *)
Lemma ApplyToInstance_applies_template_abilities_witness :
  ∃ A,
    ApplyToInstance (H := Externals_by_name) Sample.Goblin (Some Sample.Instance)
      (Some (Sample.Modification_of []
               [("Fireball", Sample.Fireball); ("BasicAttack", Sample.HeavyAttack)]))
      = Some A ∧
    length (AppliedAbilities A) = 1 ∧
    AppliedAbilities A !! 0 = Some Sample.HeavyAttack.
Proof.
  destruct (ApplyToInstance_applies_template_abilities (H := Externals_by_name)
              Sample.Goblin Sample.Instance
              (Some (Sample.Modification_of []
                       [("Fireball", Sample.Fireball);
                        ("BasicAttack", Sample.HeavyAttack)])))
    as (A & HA & Hlen & Hnth & _); [reflexivity|].
  exists A. split; [exact HA|]. split; [exact Hlen|].
  exact (Hnth 0 Sample.BasicAttack eq_refl).
Defined.

(** C4. With a modification, the visual record handed to
    [ApplyVisualCustomization] is the modification's [VisualModifications]
    and the AI record handed to [ApplyAIConfiguration] is its
    [AIModifications], whole: the two records are the same whatever
    template the modification is applied to, so nothing of the template's
    own visuals or AI configuration is left in them. Without a
    modification they are the template's own records. *)
Theorem ApplyToInstance_replaces_visuals_and_AI `{Externals}
    (T : UEnemyTemplate) (Instance : ACharacter) :
  (∀ M, ∃ A,
     ApplyToInstance T (Some Instance) (Some M) = Some A ∧
     FinalVisuals A = VisualModifications M ∧
     FinalAIConfig A = AIModifications M ∧
     ∀ T', ∃ A',
       ApplyToInstance T' (Some Instance) (Some M) = Some A' ∧
       FinalVisuals A' = FinalVisuals A ∧
       FinalAIConfig A' = FinalAIConfig A) ∧
  (∃ A,
     ApplyToInstance T (Some Instance) None = Some A ∧
     FinalVisuals A = VisualCustomization T ∧
     FinalAIConfig A = AIConfig T) ∧
  ApplyToInstance T None None = None.
Proof.
  split; [|split; [|done]].
  - intros M. eexists. split; [reflexivity|]. simpl. split; [done|]. split; [done|].
    intros T'. eexists. split; [reflexivity|]. done.
  - eexists. split; [reflexivity|]. done.
Qed.

(** * Further properties *)

(** ** The anatomy of a validation result *)

Lemma is_nil_app {A} (l k : list A) : is_nil (l ++ k) = is_nil l && is_nil k.
Proof. by destruct l. Qed.

Lemma result_eta r :
  MkResult (bIsValid r) (ValidationErrors r) (ValidationWarnings r) = r.
Proof. by destruct r. Qed.

Lemma ValidateAbilities_body_anatomy `{Externals} T ok r Ability :
  ValidateAbilities_body T (ok, r) Ability =
    (ok && is_nil (ability_errors T Ability),
     MkResult (bIsValid r && is_nil (ability_errors T Ability))
       (ValidationErrors r ++ ability_errors T Ability) (ValidationWarnings r)).
Proof.
  unfold ValidateAbilities_body, ability_errors, AddError. simpl.
  destruct (FName_IsNone _), (IsValid (AbilityClass _)); simpl;
    rewrite ?andb_true_r, ?andb_false_r, ?app_nil_r, <- ?app_assoc;
    try reflexivity.
  by destruct r.
Qed.

Lemma ValidateAbilities_fold_anatomy `{Externals} T l ok r :
  fold_left (ValidateAbilities_body T) l (ok, r) =
    (ok && is_nil (flat_map (ability_errors T) l),
     MkResult (bIsValid r && is_nil (flat_map (ability_errors T) l))
       (ValidationErrors r ++ flat_map (ability_errors T) l) (ValidationWarnings r)).
Proof.
  revert ok r. induction l as [|Ability l IH]; intros ok r; simpl.
  - rewrite !andb_true_r, app_nil_r. by destruct r.
  - rewrite ValidateAbilities_body_anatomy, IH. simpl.
    by rewrite is_nil_app, !andb_assoc, app_assoc.
Qed.

(** The three checks on the template's own assets, as one step: they
    append [local_errors] and [local_warnings], and both the flag and the
    returned boolean are the old flag lowered when an error was appended. *)
Lemma ValidateLocal_anatomy `{Externals} T r :
  ValidateLocal T r =
    (bIsValid r && is_nil (local_errors T),
     MkResult (bIsValid r && is_nil (local_errors T))
       (ValidationErrors r ++ local_errors T)
       (ValidationWarnings r ++ local_warnings T)).
Proof.
  unfold ValidateLocal, ValidateVisualAssets, ValidateAIConfiguration,
    ValidateAbilities, local_errors, local_warnings, AddError, AddWarning.
  destruct (IsValid (SkeletalMesh _)); simpl;
    [|by rewrite andb_false_r, app_nil_r].
  destruct (IsValid (BehaviorTree _)); simpl;
    [|destruct (IsValid (AnimationBlueprint _)); simpl;
      by rewrite andb_false_r, ?app_nil_r].
  destruct (IsValid (Blackboard _)); simpl;
    [|destruct (IsValid (AnimationBlueprint _)); simpl;
      by rewrite andb_false_r, ?app_nil_r].
  destruct (IsValid (AnimationBlueprint _)); simpl;
    rewrite ValidateAbilities_fold_anatomy; simpl;
    destruct (is_nil (flat_map _ _)); simpl;
    rewrite ?andb_true_r, ?andb_false_r, ?app_nil_r; reflexivity.
Qed.

Lemma ValidateIdentity_anatomy T r :
  ValidateIdentity T (Clear r) =
    MkResult (is_nil (identity_errors T)) (identity_errors T) (identity_warnings T).
Proof.
  unfold ValidateIdentity, identity_errors, identity_warnings.
  by destruct (FName_IsNone _), (FText_IsEmpty _).
Qed.

(** One activation of [ValidateTemplate], seen from its result. *)
Lemma ValidateTemplate_S_anatomy `{Externals} fuel h this T r b res :
  h !! this = Some T →
  ValidateTemplate (S fuel) h this r = Returns (b, res) →
  ∃ parent_part,
    match ParentTemplate T with
    | None => parent_part = []
    | Some p =>
        ∃ P pb pres,
          h !! p = Some P ∧
          ValidateTemplate fuel h p FEnemyTemplateValidationResult_default
            = Returns (pb, pres) ∧
          parent_part =
            if pb then []
            else Msg.InvalidParentTemplate (TemplateName P) :: ValidationErrors pres
    end ∧
    ValidationErrors res = identity_errors T ++ parent_part ++ local_errors T ∧
    ValidationWarnings res = identity_warnings T ++ local_warnings T ∧
    b = is_nil (ValidationErrors res) ∧
    bIsValid res = b.
Proof.
  intros Hthis. rewrite ValidateTemplate_S. unfold deref. rewrite Hthis. simpl.
  rewrite ValidateIdentity_anatomy.
  destruct (ParentTemplate T) as [p|]; simpl.
  - destruct (ValidateTemplate fuel h p _) as [[pb pres]| |] eqn:Hrec; simpl;
      try discriminate.
    destruct (h !! p) as [P|] eqn:HP; simpl; [|discriminate].
    rewrite ValidateLocal_anatomy. intros [= <- <-].
    exists (if pb then [] else Msg.InvalidParentTemplate (TemplateName P)
                               :: ValidationErrors pres).
    split; [by exists P, pb, pres|].
    destruct pb; simpl.
    + rewrite !is_nil_app. by destruct (identity_errors T).
    + rewrite <- !app_assoc. simpl. rewrite !is_nil_app. simpl.
      by rewrite andb_false_r.
  - rewrite ValidateLocal_anatomy. intros [= <- <-]. exists []. simpl.
    rewrite !is_nil_app. by destruct (identity_errors T).
Qed.

(** X2. The error list of a validation result has three parts, in this
    order: the template's own identity error, then for an invalid parent the
    wrapping error naming the parent followed by all of the parent's errors
    (nothing for a valid or absent parent), then the errors of the
    template's own asset checks: the mesh error alone, or the behaviour tree
    error alone, or the blackboard error alone, or else one or two errors per
    incomplete ability, in ability order. The boolean returned says whether
    the list is empty. *)
Theorem ValidateTemplate_error_anatomy `{Externals}
    (fuel : nat) (h : Heap) (this : TemplatePtr) (T : UEnemyTemplate)
    (r : FEnemyTemplateValidationResult) (b : bool)
    (res : FEnemyTemplateValidationResult) :
  h !! this = Some T →
  ValidateTemplate (S fuel) h this r = Returns (b, res) →
  ∃ parent_part,
    match ParentTemplate T with
    | None => parent_part = []
    | Some p =>
        ∃ P pb pres,
          h !! p = Some P ∧
          ValidateTemplate fuel h p FEnemyTemplateValidationResult_default
            = Returns (pb, pres) ∧
          parent_part =
            if pb then []
            else Msg.InvalidParentTemplate (TemplateName P) :: ValidationErrors pres
    end ∧
    ValidationErrors res = identity_errors T ++ parent_part ++ local_errors T ∧
    b = is_nil (ValidationErrors res).
Proof.
  intros Hthis Hv.
  destruct (ValidateTemplate_S_anatomy _ _ _ _ _ _ _ Hthis Hv)
    as (pp & Hpp & Herr & _ & Hb & _).
  by exists pp.
Qed.

Lemma ValidateTemplate_error_anatomy_witness :
  ∃ parent_part,
    (∃ P pb pres,
       Sample.heap_ghost !! 1%positive = Some P ∧
       ValidateTemplate (H := Externals_by_name) 1 Sample.heap_ghost 1%positive
         FEnemyTemplateValidationResult_default = Returns (pb, pres) ∧
       parent_part =
         if pb then []
         else Msg.InvalidParentTemplate (TemplateName P) :: ValidationErrors pres) ∧
    ValidationErrors Sample.GhostResult =
      identity_errors Sample.Ghost ++ parent_part
        ++ local_errors (H := Externals_by_name) Sample.Ghost ∧
    false = is_nil (ValidationErrors Sample.GhostResult).
Proof.
  apply (ValidateTemplate_error_anatomy (H := Externals_by_name) 1 Sample.heap_ghost
           2%positive Sample.Ghost FEnemyTemplateValidationResult_default
           false Sample.GhostResult); vm_compute; reflexivity.
Defined.

(** X3. The warnings of a validation result are the template's own and no
    one else's: the empty display name and the missing animation blueprint
    (the latter only when the mesh is there). Warnings of the parent or of
    any ancestor never reach the child's result, valid parent or not. *)
Theorem ValidateTemplate_warnings_are_own `{Externals}
    (fuel : nat) (h : Heap) (this : TemplatePtr) (T : UEnemyTemplate)
    (r : FEnemyTemplateValidationResult) (b : bool)
    (res : FEnemyTemplateValidationResult) :
  h !! this = Some T →
  ValidateTemplate fuel h this r = Returns (b, res) →
  ValidationWarnings res = identity_warnings T ++ local_warnings T ∧
  length (ValidationWarnings res) ≤ 2.
Proof.
  intros Hthis Hv. destruct fuel as [|fuel]; [discriminate|].
  destruct (ValidateTemplate_S_anatomy _ _ _ _ _ _ _ Hthis Hv)
    as (pp & _ & _ & Hw & _).
  split; [done|]. rewrite Hw, length_app.
  unfold identity_warnings, local_warnings.
  destruct (FText_IsEmpty _), (_ && _); simpl; lia.
Qed.

(** A child with every asset, under a parent whose display name is empty and
    whose animation blueprint is missing: the parent's two warnings stay
    with the parent. *)
Lemma ValidateTemplate_warnings_are_own_witness :
  ValidationWarnings (MkResult true [] []) =
    identity_warnings (Sample.with_parent Sample.Goblin (Some 1%positive))
      ++ local_warnings (Sample.with_parent Sample.Goblin (Some 1%positive)) ∧
  length (ValidationWarnings (MkResult true [] [])) ≤ 2.
Proof.
  apply (ValidateTemplate_warnings_are_own (H := Externals_by_name) 2
           (<[ 2%positive := Sample.with_parent Sample.Goblin (Some 1%positive) ]>
              {[ 1%positive :=
                   MkTemplate "Plain" FText_Empty FText_Empty None []
                     FEnemyBaseStats_default Sample.AI
                     (MkVisuals Sample.Mesh SoftNull
                        (Scale Sample.Visuals) (ColorTint Sample.Visuals) [] [] [] [])
                     [] [] true ]})
           2%positive (Sample.with_parent Sample.Goblin (Some 1%positive))
           FEnemyTemplateValidationResult_default true (MkResult true [] []));
    vm_compute; reflexivity.
Defined.

Lemma ability_errors_nil `{Externals} T l :
  is_nil (flat_map (ability_errors T) l) =
    forallb (λ Ability,
               negb (FName_IsNone (AbilityName Ability))
               && IsValid (AbilityClass Ability)) l.
Proof.
  induction l as [|Ability l IH]; simpl; [done|].
  rewrite is_nil_app, IH. unfold ability_errors.
  by destruct (FName_IsNone _), (IsValid (AbilityClass _)).
Qed.

Lemma locally_complete_no_errors `{Externals} T :
  is_nil (identity_errors T) && is_nil (local_errors T) = locally_complete T.
Proof.
  unfold identity_errors, local_errors, locally_complete.
  destruct (FName_IsNone _), (IsValid (SkeletalMesh _)),
    (IsValid (BehaviorTree _)), (IsValid (Blackboard _)); simpl;
    try reflexivity.
  apply ability_errors_nil.
Qed.

(** The verdict of a call that returns, read off the parent chain. *)
Lemma ValidateTemplate_verdict_on_return `{Externals}
    (fuel : nat) (h : Heap) (this : TemplatePtr)
    (r : FEnemyTemplateValidationResult) (b : bool)
    (res : FEnemyTemplateValidationResult) :
  ValidateTemplate fuel h this r = Returns (b, res) →
  (b = true ↔
   ∀ a A, reaches h this a → h !! a = Some A → locally_complete A = true).
Proof.
  revert this r b res. induction fuel as [|fuel IH]; intros this r b res Hv;
    [discriminate|].
  destruct (ValidateTemplate_returns_inv _ _ _ _ _ Hv) as (T & _ & Hthis & _).
  destruct (ValidateTemplate_S_anatomy _ _ _ _ _ _ _ Hthis Hv)
    as (pp & Hpp & Herr & _ & Hb & _).
  rewrite Hb, Herr, !is_nil_app.
  rewrite (andb_comm (is_nil pp)), andb_assoc, locally_complete_no_errors.
  destruct (ParentTemplate T) as [p|] eqn:Hp.
  - destruct Hpp as (P & pb & pres & HP & Hrec & ->).
    specialize (IH _ _ _ _ Hrec). split.
    + intros [Hloc Hpar]%andb_true_iff a A Ha HA.
      apply rtc_inv in Ha as [<-|(y & (T' & HT' & Hy) & Hya)]; [congruence|].
      assert (y = p) as -> by congruence.
      destruct pb; [|discriminate]. by eapply (proj1 IH).
    + intros Hall. apply andb_true_iff. split.
      * by apply (Hall this T); [apply rtc_refl|].
      * assert (pb = true) as ->; [|done]. apply IH. intros a A Ha HA.
        apply (Hall a A); [|done]. eapply rtc_l; [|exact Ha]. by exists T.
  - subst pp. rewrite andb_true_r. split.
    + intros Hloc a A Ha HA.
      apply rtc_inv in Ha as [<-|(y & (T' & HT' & Hy) & _)]; congruence.
    + intros Hall. by apply (Hall this T); [apply rtc_refl|].
Qed.

(** X1. On a template whose parent chain is finite and acyclic (it reaches
    a root after [n] steps), [ValidateTemplate] returns within [n + 1]
    activations, and it answers [true] exactly when the template and every
    template on its parent chain is complete: named, with skeletal mesh,
    behaviour tree and blackboard, and with every ability named and given a
    valid class. Warnings, the display name and the animation blueprint
    play no part in the verdict. *)
Theorem ValidateTemplate_valid_iff_chain_complete `{Externals}
    (fuel n : nat) (h : Heap) (this : TemplatePtr)
    (r : FEnemyTemplateValidationResult) :
  parent_chain_ends h this n →
  n < fuel →
  ∃ b res,
    ValidateTemplate fuel h this r = Returns (b, res) ∧
    (b = true ↔
     ∀ a A, reaches h this a → h !! a = Some A → locally_complete A = true).
Proof.
  intros Hends Hfuel.
  destruct (ValidateTemplate_returns_on_chain h this n Hends fuel r Hfuel)
    as [[b res] Hv].
  exists b, res. split; [exact Hv|].
  by eapply ValidateTemplate_verdict_on_return.
Qed.

Lemma ValidateTemplate_valid_iff_chain_complete_witness :
  ∃ b res,
    ValidateTemplate (H := Externals_by_name) 3 Sample.heap_line 3%positive
      FEnemyTemplateValidationResult_default = Returns (b, res) ∧
    (b = true ↔
     ∀ a A, reaches Sample.heap_line 3%positive a →
            Sample.heap_line !! a = Some A → locally_complete A = true).
Proof.
  apply (ValidateTemplate_valid_iff_chain_complete (H := Externals_by_name) 3 2
           Sample.heap_line 3%positive FEnemyTemplateValidationResult_default).
  - exact heap_line_ends.
  - lia.
Defined.

(** ** [CreateChildTemplate] *)

Lemma CreateChildTemplate_unfold Child h this T Name :
  h !! this = Some T →
  CreateChildTemplate Child h this Name =
    Returns (Child, <[Child := child_of T this Name]> h).
Proof. intros Hthis. unfold CreateChildTemplate, deref. by rewrite Hthis. Qed.

Lemma heap_closed_insert_child h Child T this Name :
  heap_closed h → h !! this = Some T →
  heap_closed (<[Child := child_of T this Name]> h).
Proof.
  intros Hclosed Hthis a A p Ha Hp.
  destruct (decide (p = Child)) as [->|Hne];
    [rewrite lookup_insert_eq; eauto | rewrite lookup_insert_ne by done].
  destruct (decide (a = Child)) as [->|Hna].
  - rewrite lookup_insert_eq in Ha. injection Ha as <-. simpl in Hp.
    injection Hp as <-. eauto.
  - rewrite lookup_insert_ne in Ha by done. by eapply Hclosed.
Qed.

Lemma parent_chain_ends_insert_fresh h Child C a n :
  h !! Child = None →
  parent_chain_ends h a n → parent_chain_ends (<[Child := C]> h) a n.
Proof.
  intros Hfresh. induction 1 as [a T Ha Hp | a T p n Ha Hp _ IH].
  - eapply chain_root; [|done]. rewrite lookup_insert_ne; [done|congruence].
  - eapply chain_step; [|done|done]. rewrite lookup_insert_ne; [done|congruence].
Qed.

(** X4. [CreateChildTemplate] on a live template returns the new address;
    the object there has the given name, points at the original as its
    parent, and carries the original's stats, AI configuration, visuals and
    abilities field for field, while its display name, description and tags
    are those of a new object, not the original's. Every other object of
    the heap, the original included, is left as it was. *)
Theorem CreateChildTemplate_copies_and_links
    (Child : TemplatePtr) (h : Heap) (this : TemplatePtr) (T : UEnemyTemplate)
    (Name : FName) :
  h !! Child = None →
  h !! this = Some T →
  ∃ h' C,
    CreateChildTemplate Child h this Name = Returns (Child, h') ∧
    h' !! Child = Some C ∧
    TemplateName C = Name ∧ ParentTemplate C = Some this ∧
    BaseStats C = BaseStats T ∧ AIConfig C = AIConfig T ∧
    VisualCustomization C = VisualCustomization T ∧ Abilities C = Abilities T ∧
    DisplayName C = FText_Empty ∧ Description C = FText_Empty ∧
    TemplateTags C = [] ∧
    bNeedsInheritanceChainUpdate C = true ∧
    h' !! this = Some T ∧
    (∀ a, a ≠ Child → h' !! a = h !! a).
Proof.
  intros Hfresh Hthis. eexists _, _.
  split; [by apply CreateChildTemplate_unfold|].
  split; [apply lookup_insert_eq|]. repeat (split; [reflexivity|]).
  split; [rewrite lookup_insert_ne; [done|congruence]|].
  intros a Ha. by rewrite lookup_insert_ne.
Qed.

Lemma CreateChildTemplate_copies_and_links_witness :
  ∃ h' C,
    CreateChildTemplate 2%positive Sample.heap_goblin 1%positive "GoblinArcher"
      = Returns (2%positive, h') ∧
    h' !! 2%positive = Some C ∧
    TemplateName C = "GoblinArcher" ∧ ParentTemplate C = Some 1%positive ∧
    BaseStats C = BaseStats Sample.Goblin ∧ AIConfig C = AIConfig Sample.Goblin ∧
    VisualCustomization C = VisualCustomization Sample.Goblin ∧
    Abilities C = Abilities Sample.Goblin ∧
    DisplayName C = FText_Empty ∧ Description C = FText_Empty ∧
    TemplateTags C = [] ∧
    bNeedsInheritanceChainUpdate C = true ∧
    h' !! 1%positive = Some Sample.Goblin ∧
    (∀ a, a ≠ 2%positive → h' !! a = Sample.heap_goblin !! a).
Proof.
  apply (CreateChildTemplate_copies_and_links 2%positive Sample.heap_goblin
           1%positive Sample.Goblin "GoblinArcher"); vm_compute; reflexivity.
Defined.

(** X5. Cloning keeps the parent graph well formed: a heap without dangling
    parent pointers stays so, every parent chain that ended before still
    ends after the same number of steps, and the child's chain ends one
    step after the original's. No cycle can come from [CreateChildTemplate],
    so [ValidateTemplate] returns on the child wherever it returned on the
    original. *)
Theorem CreateChildTemplate_keeps_chains_finite
    (Child : TemplatePtr) (h : Heap) (this : TemplatePtr) (T : UEnemyTemplate)
    (Name : FName) :
  h !! Child = None →
  h !! this = Some T →
  ∃ h',
    CreateChildTemplate Child h this Name = Returns (Child, h') ∧
    (heap_closed h → heap_closed h') ∧
    (∀ a n, parent_chain_ends h a n → parent_chain_ends h' a n) ∧
    (∀ n, parent_chain_ends h this n → parent_chain_ends h' Child (S n)).
Proof.
  intros Hfresh Hthis. eexists.
  split; [by apply CreateChildTemplate_unfold|].
  split; [intros Hc; by apply heap_closed_insert_child|].
  split; [intros a n; by apply parent_chain_ends_insert_fresh|].
  intros n Hn. eapply chain_step; [apply lookup_insert_eq | reflexivity |].
  by apply parent_chain_ends_insert_fresh.
Qed.

Lemma CreateChildTemplate_keeps_chains_finite_witness :
  ∃ h',
    CreateChildTemplate 4%positive Sample.heap_line 3%positive "Leaf"
      = Returns (4%positive, h') ∧
    (heap_closed Sample.heap_line → heap_closed h') ∧
    (∀ a n, parent_chain_ends Sample.heap_line a n → parent_chain_ends h' a n) ∧
    (∀ n, parent_chain_ends Sample.heap_line 3%positive n →
          parent_chain_ends h' 4%positive (S n)).
Proof.
  apply (CreateChildTemplate_keeps_chains_finite 4%positive Sample.heap_line
           3%positive (Sample.with_parent Sample.Goblin (Some 2%positive)) "Leaf");
    vm_compute; reflexivity.
Defined.

(** Validation only reads the objects it can reach: an object added at an
    unused address changes nothing for the templates that were there. *)
Lemma ValidateTemplate_insert_fresh `{Externals} h Child C :
  heap_closed h → h !! Child = None →
  ∀ fuel a r,
    is_Some (h !! a) →
    ValidateTemplate fuel (<[Child := C]> h) a r = ValidateTemplate fuel h a r.
Proof.
  intros Hclosed Hfresh. induction fuel as [|fuel IH]; intros a r [T Ha]; [done|].
  rewrite !ValidateTemplate_S. unfold deref.
  rewrite lookup_insert_ne by congruence. rewrite Ha. simpl.
  destruct (ParentTemplate T) as [p|] eqn:Hp; [|done].
  destruct (Hclosed a T p Ha Hp) as [P HP].
  rewrite IH by eauto. rewrite lookup_insert_ne by congruence. done.
Qed.

Lemma ValidateTemplate_true_locally_complete `{Externals} fuel h this T r res :
  h !! this = Some T →
  ValidateTemplate fuel h this r = Returns (true, res) →
  locally_complete T = true.
Proof.
  intros Hthis Hv. destruct fuel as [|fuel]; [discriminate|].
  destruct (ValidateTemplate_S_anatomy _ _ _ _ _ _ _ Hthis Hv)
    as (pp & _ & Herr & _ & Hb & _).
  rewrite Herr, !is_nil_app in Hb. rewrite <- locally_complete_no_errors.
  symmetry in Hb. apply andb_true_iff in Hb as [-> [_ ->]%andb_true_iff]. done.
Qed.

(** X6. A child made by [CreateChildTemplate] validates as its original
    does, provided it was given a name: the child is valid exactly when the
    original is valid and the new name is not [None]. Whatever the verdict,
    the child's result carries the warning about the empty display name,
    since the display name is not copied. *)
Theorem CreateChildTemplate_child_validates_like_parent `{Externals}
    (fuel : nat) (Child : TemplatePtr) (h : Heap) (this : TemplatePtr)
    (T : UEnemyTemplate) (Name : FName)
    (r r' : FEnemyTemplateValidationResult) (pb : bool)
    (pres : FEnemyTemplateValidationResult) :
  heap_closed h →
  h !! Child = None →
  h !! this = Some T →
  ValidateTemplate fuel h this r = Returns (pb, pres) →
  ∃ h' cres,
    CreateChildTemplate Child h this Name = Returns (Child, h') ∧
    ValidateTemplate (S fuel) h' Child r' =
      Returns (pb && negb (FName_IsNone Name), cres) ∧
    NSLOCTEXT "EnemyCreator" "NoDisplayName" "Display name is empty"
      ∈ ValidationWarnings cres.
Proof.
  intros Hclosed Hfresh Hthis Hv.
  set (h' := <[Child := child_of T this Name]> h).
  assert (Hrec : ValidateTemplate fuel h' this FEnemyTemplateValidationResult_default
                 = Returns (pb, pres)).
  { unfold h'. rewrite ValidateTemplate_insert_fresh by eauto.
    by rewrite (ValidateTemplate_ignores_OutResult _ _ _ _ r). }
  assert (HC : h' !! Child = Some (child_of T this Name)) by apply lookup_insert_eq.
  assert (Hthis' : h' !! this = Some T).
  { unfold h'. rewrite lookup_insert_ne; [done|congruence]. }
  destruct (ValidateTemplate (S fuel) h' Child r') as [[cb cres]| |] eqn:Hc.
  - exists h', cres. split; [by apply CreateChildTemplate_unfold|].
    destruct (ValidateTemplate_S_anatomy _ _ _ _ _ _ _ HC Hc)
      as (pp & Hpp & Herr & Hw & Hb & _).
    simpl in Hpp. destruct Hpp as (P & pb' & pres' & HP & Hrec' & ->).
    rewrite Hrec in Hrec'. injection Hrec' as <- <-.
    split.
    + rewrite Hc. f_equal. f_equal. rewrite Hb, Herr, !is_nil_app.
      destruct pb; simpl; [|by rewrite andb_false_r].
      pose proof (ValidateTemplate_true_locally_complete _ _ _ _ _ _ Hthis Hv) as Hloc.
      rewrite <- locally_complete_no_errors in Hloc.
      apply andb_true_iff in Hloc as [_ Hloc].
      assert (local_errors (child_of T this Name) = local_errors T) as -> by done.
      rewrite Hloc, andb_true_r. unfold identity_errors. simpl.
      by destruct (FName_IsNone Name).
    + rewrite Hw. apply elem_of_app. left. left.
  - exfalso. rewrite ValidateTemplate_S in Hc. unfold deref in Hc.
    rewrite HC in Hc. simpl in Hc. rewrite Hrec in Hc. simpl in Hc.
    rewrite Hthis' in Hc. discriminate.
  - exfalso. rewrite ValidateTemplate_S in Hc. unfold deref in Hc.
    rewrite HC in Hc. simpl in Hc. rewrite Hrec in Hc. simpl in Hc.
    rewrite Hthis' in Hc. discriminate.
Qed.

Lemma heap_goblin_closed : heap_closed Sample.heap_goblin.
Proof.
  intros a T p Ha Hp. unfold Sample.heap_goblin in Ha.
  apply lookup_singleton_Some in Ha as [<- <-]. discriminate.
Defined.

Lemma CreateChildTemplate_child_validates_like_parent_witness :
  ∃ h' cres,
    CreateChildTemplate 2%positive Sample.heap_goblin 1%positive "GoblinArcher"
      = Returns (2%positive, h') ∧
    ValidateTemplate (H := Externals_by_name) 2 h' 2%positive
      FEnemyTemplateValidationResult_default =
      Returns (true && negb (FName_IsNone "GoblinArcher"), cres) ∧
    NSLOCTEXT "EnemyCreator" "NoDisplayName" "Display name is empty"
      ∈ ValidationWarnings cres.
Proof.
  apply (CreateChildTemplate_child_validates_like_parent (H := Externals_by_name)
           1 2%positive Sample.heap_goblin 1%positive Sample.Goblin "GoblinArcher"
           FEnemyTemplateValidationResult_default
           FEnemyTemplateValidationResult_default true (MkResult true [] [])).
  - exact heap_goblin_closed.
  - vm_compute. reflexivity.
  - vm_compute. reflexivity.
  - vm_compute. reflexivity.
Defined.

(** The loop started under an extra head element that it never meets again
    behaves as without it. *)
Lemma InheritanceChain_loop_under_child h Child C :
  heap_closed h → h !! Child = None →
  ∀ fuel Chain Current res,
    (∀ c, Current = Some c → is_Some (h !! c)) →
    InheritanceChain_loop fuel h Chain Current = Returns res →
    InheritanceChain_loop fuel (<[Child := C]> h) (Child :: Chain) Current
      = Returns (Child :: res).
Proof.
  intros Hclosed Hfresh.
  induction fuel as [|fuel IH]; intros Chain [c|] res Hlive; simpl;
    try discriminate; try (by intros [= <-]).
  destruct (Hlive c eq_refl) as [T Hc]. unfold deref. simpl.
  rewrite lookup_insert_ne by congruence. rewrite Hc. simpl.
  assert (Hcont : Chain_Contains (Child :: Chain ++ [c]) (ParentTemplate T)
                  = Chain_Contains (Chain ++ [c]) (ParentTemplate T)).
  { destruct (ParentTemplate T) as [p|] eqn:Hp; [|done]. simpl.
    destruct (Hclosed c T p Hc Hp) as [P HP].
    apply bool_decide_ext. rewrite elem_of_cons.
    split; [intros [->|?]; [congruence|done] | by right]. }
  rewrite Hcont.
  destruct (Chain_Contains (Chain ++ [c]) (ParentTemplate T)); [by intros [= <-]|].
  apply (IH (Chain ++ [c])). intros p Hp. by eapply Hclosed.
Qed.

(** X7. The inheritance chain of a freshly made child is the child followed
    by the chain of the original: if the walk from the original returns
    [Chain] on the old heap, the first [GetInheritanceChain] of the child
    returns [Child :: Chain], one iteration later. *)
Theorem CreateChildTemplate_chain_extends_parent_chain
    (fuel : nat) (Child : TemplatePtr) (h : Heap) (this : TemplatePtr)
    (T : UEnemyTemplate) (Name : FName) (Chain : list TemplatePtr) :
  heap_closed h →
  h !! Child = None →
  h !! this = Some T →
  InheritanceChain_loop fuel h [] (Some this) = Returns Chain →
  ∃ h' h'',
    CreateChildTemplate Child h this Name = Returns (Child, h') ∧
    GetInheritanceChain (S fuel) h' Child = Returns (Child :: Chain, h'').
Proof.
  intros Hclosed Hfresh Hthis Hloop. eexists _, _.
  split; [by apply CreateChildTemplate_unfold|].
  unfold GetInheritanceChain, deref. rewrite lookup_insert_eq. simpl.
  unfold deref. rewrite lookup_insert_eq. simpl.
  rewrite bool_decide_eq_false_2.
  2: { intros ->%list_elem_of_singleton. congruence. }
  rewrite (InheritanceChain_loop_under_child h Child _ Hclosed Hfresh fuel []
             (Some this) Chain); [done| |done].
  intros c [= <-]. eauto.
Qed.

Lemma CreateChildTemplate_chain_extends_parent_chain_witness :
  ∃ h' h'',
    CreateChildTemplate 4%positive Sample.heap_cycle 1%positive "Leaf"
      = Returns (4%positive, h') ∧
    GetInheritanceChain 3 h' 4%positive
      = Returns ([4%positive; 1%positive; 2%positive], h'').
Proof.
  apply (CreateChildTemplate_chain_extends_parent_chain 2 4%positive
           Sample.heap_cycle 1%positive
           (Sample.with_parent Sample.Goblin (Some 2%positive)) "Leaf"
           [1%positive; 2%positive]).
  - exact heap_cycle_closed.
  - vm_compute. reflexivity.
  - vm_compute. reflexivity.
  - vm_compute. reflexivity.
Defined.

(** ** [ApplyAbility] and what validation promises it *)

Lemma ApplyAbility_grants spec Ability :
  filter is_GiveAbility (ApplyAbility spec true Ability) =
    if class_is_valid Ability
    then [GiveAbility (Get (AbilityClass Ability)) 1 INDEX_NONE] else [].
Proof.
  unfold ApplyAbility, class_is_valid. destruct (IsValid (AbilityClass _)); simpl; [|done].
  rewrite filter_cons_True by done. f_equal.
  induction (AbilityEffects Ability) as [|E l IH]; simpl; [done|].
  rewrite filter_app, IH, app_nil_r.
  by destruct (IsValid E), (spec (Get E)).
Qed.

Lemma flat_map_grants spec l :
  filter is_GiveAbility (flat_map (ApplyAbility spec true) l) =
    (λ Ability, GiveAbility (Get (AbilityClass Ability)) 1 INDEX_NONE)
      <$> filter class_is_valid l.
Proof.
  induction l as [|Ability l IH]; simpl; [done|].
  rewrite filter_app, IH, ApplyAbility_grants.
  destruct (class_is_valid Ability) eqn:Hv.
  - rewrite filter_cons_True; [done|]. by rewrite Hv.
  - rewrite filter_cons_False; [done|]. rewrite Hv. intros [].
Qed.

(** X8. The abilities [ApplyToInstance] grants are the selected definitions
    (template ability or its override) whose class reference is valid, in
    template order, each granted once at level 1 with no input binding; a
    definition with an invalid class is passed over without any call, so
    the instance can end up with fewer abilities than the template lists.
    An ability with an invalid class has none of its effects applied
    either. Without an ability system component nothing is called. *)
Theorem ApplyToInstance_grants_valid_classes `{Externals}
    (spec : option Asset → bool) (T : UEnemyTemplate) (Instance : ACharacter)
    (Modification : option FEnemyTemplateModification) :
  (HasAbilitySystemComponent Instance = true →
   filter is_GiveAbility
     (ApplyToInstance_ability_calls spec T (Some Instance) Modification) =
     (λ Ability, GiveAbility (Get (AbilityClass Ability)) 1 INDEX_NONE)
       <$> filter class_is_valid (SelectAbility Modification <$> Abilities T) ∧
   length (filter is_GiveAbility
             (ApplyToInstance_ability_calls spec T (Some Instance) Modification))
     ≤ length (Abilities T)) ∧
  (HasAbilitySystemComponent Instance = false →
   ApplyToInstance_ability_calls spec T (Some Instance) Modification = []) ∧
  (∀ Ability, class_is_valid Ability = false → ApplyAbility spec true Ability = []).
Proof.
  unfold ApplyToInstance_ability_calls, ApplyToInstance.
  split; [|split].
  - intros ->. simpl. rewrite flat_map_grants. split; [done|].
    rewrite length_fmap.
    etrans; [apply length_filter|]. by rewrite length_fmap.
  - by intros ->.
  - intros Ability Hc. unfold ApplyAbility. unfold class_is_valid in Hc.
    by rewrite Hc.
Qed.

(** An override without a class makes the only ability disappear. *)
Lemma ApplyToInstance_grants_valid_classes_witness :
  ApplyToInstance_ability_calls (H := Externals_by_name) (λ _, true) Sample.Goblin
    (Some Sample.Instance)
    (Some (Sample.Modification_of []
             [("BasicAttack",
               MkAbility "BasicAttack" FText_Empty FText_Empty [] Float32.zero
                 Float32.zero Float32.zero false SoftNull SoftNull [])])) = [] ∧
  filter is_GiveAbility
    (ApplyToInstance_ability_calls (H := Externals_by_name) (λ _, true) Sample.Goblin
       (Some Sample.Instance) None)
  = [GiveAbility (Some "/Game/Abilities/GA_BasicAttack") 1 INDEX_NONE] ∧
  ApplyToInstance_ability_calls (H := Externals_by_name) (λ _, true) Sample.Goblin
    (Some (MkCharacter false)) None = [].
Proof.
  split; [reflexivity|]. split.
  - apply (proj1 (proj1 (ApplyToInstance_grants_valid_classes
                           (H := Externals_by_name) (λ _, true) Sample.Goblin
                           Sample.Instance None) eq_refl)).
  - apply (proj1 (proj2 (ApplyToInstance_grants_valid_classes
                           (H := Externals_by_name) (λ _, true) Sample.Goblin
                           (MkCharacter false) None))).
    reflexivity.
Defined.

Lemma locally_complete_classes T :
  locally_complete T = true → filter class_is_valid (Abilities T) = Abilities T.
Proof.
  unfold locally_complete. intros [_ Hall]%andb_true_iff.
  induction (Abilities T) as [|Ability l IH]; [done|].
  simpl in Hall. apply andb_true_iff in Hall as [[_ Hc]%andb_true_iff Hl].
  rewrite filter_cons_True by (unfold class_is_valid; by rewrite Hc).
  f_equal. by apply IH.
Qed.

Lemma SelectAbility_None (l : list FEnemyAbilityDefinition) :
  SelectAbility None <$> l = l.
Proof. induction l as [|a l IH]; [done|]. rewrite fmap_cons, IH. done. Qed.

(** X9. What a passed validation is good for: a template that
    [ValidateTemplate] accepts, applied without modification to an instance
    with an ability system, has every one of its abilities granted, in
    order, none skipped. *)
Theorem ValidateTemplate_valid_grants_all_abilities `{Externals}
    (spec : option Asset → bool) (fuel : nat) (h : Heap) (this : TemplatePtr)
    (T : UEnemyTemplate) (r res : FEnemyTemplateValidationResult)
    (Instance : ACharacter) :
  h !! this = Some T →
  ValidateTemplate fuel h this r = Returns (true, res) →
  HasAbilitySystemComponent Instance = true →
  filter is_GiveAbility (ApplyToInstance_ability_calls spec T (Some Instance) None) =
    (λ Ability, GiveAbility (Get (AbilityClass Ability)) 1 INDEX_NONE)
      <$> Abilities T.
Proof.
  intros Hthis Hv Hasc.
  unfold ApplyToInstance_ability_calls, ApplyToInstance. rewrite Hasc. simpl.
  rewrite flat_map_grants.
  change (map (SelectAbility None) (Abilities T))
    with (SelectAbility None <$> Abilities T).
  rewrite SelectAbility_None, locally_complete_classes; [done|].
  by eapply ValidateTemplate_true_locally_complete.
Qed.

Lemma ValidateTemplate_valid_grants_all_abilities_witness :
  filter is_GiveAbility
    (ApplyToInstance_ability_calls (H := Externals_by_name) (λ _, false) Sample.Goblin
       (Some Sample.Instance) None) =
    (λ Ability, GiveAbility (Get (AbilityClass Ability)) 1 INDEX_NONE)
      <$> Abilities Sample.Goblin.
Proof.
  apply (ValidateTemplate_valid_grants_all_abilities (H := Externals_by_name)
           (λ _, false) 1 Sample.heap_goblin 1%positive Sample.Goblin
           FEnemyTemplateValidationResult_default (MkResult true [] []));
    vm_compute; reflexivity.
Defined.

(** ** What [ValidateConfiguration] looks at *)

Lemma ValidateModifiedAbilities_keys_only T l l' r :
  l.*1 = l'.*1 →
  ValidateModifiedAbilities T l r = ValidateModifiedAbilities T l' r.
Proof.
  revert l'. induction l as [|[k d] l IH]; intros [|[k' d'] l']; simpl;
    try discriminate; [done|].
  intros [= <- Hkeys].
  destruct (FName_IsNone k); [done|].
  destruct (AbilityFound _ k); simpl; [by apply IH | done].
Qed.

(** X10. [ValidateConfiguration] reads the base template, the stat
    multipliers and the keys of the modified abilities, and nothing else of
    the configuration: the override definitions stored under those keys,
    the AI override, the visual override and the additional tags have no
    influence on its outcome. An override with no ability class, or a
    visual override with no mesh, passes unnoticed. *)
Theorem ValidateConfiguration_ignores_override_contents `{Externals}
    (fuel : nat) (h : Heap) (cfg cfg' : UEnemyConfiguration)
    (r r' : FEnemyTemplateValidationResult) :
  BaseTemplate cfg = BaseTemplate cfg' →
  StatMultipliers (Modifications cfg) = StatMultipliers (Modifications cfg') →
  (ModifiedAbilities (Modifications cfg)).*1
    = (ModifiedAbilities (Modifications cfg')).*1 →
  ValidateConfiguration fuel h cfg r = ValidateConfiguration fuel h cfg' r'.
Proof.
  intros Hbase Hstats Hkeys. unfold ValidateConfiguration.
  rewrite Hbase, Hstats.
  destruct (IsValid (BaseTemplate cfg')); simpl; [|done].
  destruct (Get (BaseTemplate cfg')) as [p|]; [|done].
  rewrite (ValidateTemplate_ignores_OutResult _ _ _ (Clear r) (Clear r')).
  destruct (ValidateTemplate fuel h p (Clear r')) as [[ok r0]| |]; simpl; try done.
  destruct ok; simpl; [|done].
  destruct (deref h p) as [T| |]; simpl; try done.
  destruct (ValidateStatMultipliers _ r0) as [[] r1]; simpl; [|done].
  by rewrite (ValidateModifiedAbilities_keys_only T _ _ r1 Hkeys).
Qed.

Lemma ValidateConfiguration_ignores_override_contents_witness :
  ValidateConfiguration (H := Externals_by_name) 1 Sample.heap_goblin
    (Sample.Configuration_of [] [("BasicAttack", Sample.HeavyAttack)])
    FEnemyTemplateValidationResult_default
  = ValidateConfiguration (H := Externals_by_name) 1 Sample.heap_goblin
      (MkConfiguration (SoftLoaded 1%positive)
         (MkModification [] [("BasicAttack", FEnemyAbilityDefinition_default)]
            Sample.NoBehaviorTreeAI Sample.NoMeshVisuals ["Undead"]))
      Sample.GhostResult.
Proof.
  apply (ValidateConfiguration_ignores_override_contents (H := Externals_by_name));
    reflexivity.
Defined.

(** X11. [ValidateConfiguration] answers [true] exactly when the base
    template validates, no stat multiplier is [<= 0] and every
    modified-ability key is a name other than [None] borne by an ability of
    the base template; the result it leaves is then the template's own
    result, warnings included. *)
Theorem ValidateConfiguration_valid_iff `{Externals}
    (fuel : nat) (h : Heap) (cfg : UEnemyConfiguration) (a : TemplatePtr)
    (T : UEnemyTemplate) (r r' : FEnemyTemplateValidationResult)
    (tb : bool) (tres : FEnemyTemplateValidationResult) :
  IsValid (BaseTemplate cfg) = true →
  Get (BaseTemplate cfg) = Some a →
  h !! a = Some T →
  ValidateTemplate fuel h a r' = Returns (tb, tres) →
  ∃ res,
    ValidateConfiguration fuel h cfg r =
      Returns (tb
               && forallb (λ e, negb (bad_multiplier e))
                    (StatMultipliers (Modifications cfg))
               && forallb (λ e, negb (bad_ability_key T e))
                    (ModifiedAbilities (Modifications cfg)),
               res) ∧
    (tb && forallb (λ e, negb (bad_multiplier e))
             (StatMultipliers (Modifications cfg))
        && forallb (λ e, negb (bad_ability_key T e))
             (ModifiedAbilities (Modifications cfg)) = true →
     res = tres).
Proof.
  intros Hvalid Hget Ha Hv. unfold ValidateConfiguration.
  rewrite Hvalid, Hget. simpl.
  rewrite (ValidateTemplate_ignores_OutResult _ _ _ _ r'), Hv. simpl.
  destruct tb; simpl; [|eexists; split; [done|discriminate]].
  unfold deref. rewrite Ha. simpl. rewrite ValidateStatMultipliers_first.
  assert (Hfind : ∀ {A} (f : A → bool) l,
            forallb (λ e, negb (f e)) l = match find f l with Some _ => false | None => true end).
  { intros A f l. induction l as [|e l IH]; simpl; [done|]. by destruct (f e). }
  rewrite (Hfind _ bad_multiplier), (Hfind _ (bad_ability_key T)).
  destruct (find bad_multiplier _); simpl; [eexists; split; [done|discriminate]|].
  rewrite ValidateModifiedAbilities_first.
  destruct (find (bad_ability_key T) _); simpl; eexists; split; done.
Qed.

Lemma ValidateConfiguration_valid_iff_witness :
  ∃ res,
    ValidateConfiguration (H := Externals_by_name) 1 Sample.heap_goblin
      (Sample.Configuration_of [("Damage", Float32.of_Z 2)]
         [("BasicAttack", Sample.HeavyAttack)])
      FEnemyTemplateValidationResult_default =
      Returns (true
               && forallb (λ e, negb (bad_multiplier e)) [("Damage", Float32.of_Z 2)]
               && forallb (λ e, negb (bad_ability_key Sample.Goblin e))
                    [("BasicAttack", Sample.HeavyAttack)], res) ∧
    (true
     && forallb (λ e, negb (bad_multiplier e)) [("Damage", Float32.of_Z 2)]
     && forallb (λ e, negb (bad_ability_key Sample.Goblin e))
          [("BasicAttack", Sample.HeavyAttack)] = true →
     res = MkResult true [] []).
Proof.
  apply (ValidateConfiguration_valid_iff (H := Externals_by_name) 1
           Sample.heap_goblin
           (Sample.Configuration_of [("Damage", Float32.of_Z 2)]
              [("BasicAttack", Sample.HeavyAttack)])
           1%positive Sample.Goblin FEnemyTemplateValidationResult_default
           FEnemyTemplateValidationResult_default true (MkResult true [] []));
    vm_compute; reflexivity.
Defined.

(** ** A configuration fresh from its template *)

Lemma InitializeFromTemplate_unfold h cfg p T :
  h !! p = Some T →
  InitializeFromTemplate h cfg (Some p) =
    Returns (MkConfiguration (SoftLoaded p)
               (MkModification [] [] (AIConfig T) (VisualCustomization T)
                  (TemplateTags T))).
Proof. intros Hp. unfold InitializeFromTemplate, deref. by rewrite Hp. Qed.

Lemma SelectAbility_no_overrides M (l : list FEnemyAbilityDefinition) :
  ModifiedAbilities M = [] → map (SelectAbility (Some M)) l = l.
Proof.
  intros HM. induction l as [|a l IH]; simpl; [done|].
  rewrite IH. unfold SelectAbility, TMap_Contains. by rewrite HM.
Qed.

(** X12. A configuration that [CreateEnemyConfiguration] (through
    [InitializeFromTemplate]) has just made from a live template is a
    neutral one: whatever the configuration object held before, it now has
    no stat multiplier and no ability override, and applying it gives the
    instance exactly what applying the template itself without modification
    gives: the same stats, visuals, AI configuration and abilities. A null
    template makes [CreateEnemyConfiguration] return null and
    [InitializeFromTemplate] leave the configuration untouched. *)
Theorem fresh_configuration_applies_like_template `{Externals}
    (h : Heap) (p : TemplatePtr) (T : UEnemyTemplate)
    (old : UEnemyConfiguration) (Enemy : ACharacter) :
  h !! p = Some T →
  ∃ cfg,
    CreateEnemyConfiguration h (Some p) = Returns (Some cfg) ∧
    InitializeFromTemplate h old (Some p) = Returns cfg ∧
    StatMultipliers (Modifications cfg) = [] ∧
    ModifiedAbilities (Modifications cfg) = [] ∧
    ApplyConfiguration h cfg (Some Enemy)
      = Returns (ApplyToInstance T (Some Enemy) None) ∧
    CreateEnemyConfiguration h None = Returns None ∧
    InitializeFromTemplate h old None = Returns old.
Proof.
  intros Hp. eexists.
  split; [unfold CreateEnemyConfiguration; by rewrite (InitializeFromTemplate_unfold _ _ _ T)|].
  split; [by apply InitializeFromTemplate_unfold|].
  split; [done|]. split; [done|]. split; [|done].
  unfold ApplyConfiguration, deref. simpl. rewrite Hp. simpl.
  unfold ApplyToInstance. simpl.
  rewrite SelectAbility_no_overrides by done.
  change (map (SelectAbility None) (Abilities T))
    with (SelectAbility None <$> Abilities T).
  by rewrite SelectAbility_None.
Qed.

Lemma fresh_configuration_applies_like_template_witness :
  ∃ cfg,
    CreateEnemyConfiguration Sample.heap_goblin (Some 1%positive) = Returns (Some cfg) ∧
    InitializeFromTemplate Sample.heap_goblin
      (Sample.Configuration_of [("Damage", Float32.zero)]
         [("Fireball", Sample.Fireball)]) (Some 1%positive) = Returns cfg ∧
    StatMultipliers (Modifications cfg) = [] ∧
    ModifiedAbilities (Modifications cfg) = [] ∧
    ApplyConfiguration (H := Externals_by_name) Sample.heap_goblin cfg
      (Some Sample.Instance)
      = Returns (ApplyToInstance (H := Externals_by_name) Sample.Goblin
                   (Some Sample.Instance) None) ∧
    CreateEnemyConfiguration Sample.heap_goblin None = Returns None ∧
    InitializeFromTemplate Sample.heap_goblin
      (Sample.Configuration_of [("Damage", Float32.zero)]
         [("Fireball", Sample.Fireball)]) None
      = Returns (Sample.Configuration_of [("Damage", Float32.zero)]
                   [("Fireball", Sample.Fireball)]).
Proof.
  apply (fresh_configuration_applies_like_template (H := Externals_by_name)
           Sample.heap_goblin 1%positive Sample.Goblin).
  vm_compute. reflexivity.
Defined.

(** X13. A configuration fresh from its template validates as the template
    does: [ValidateConfiguration] on it ends exactly as [ValidateTemplate]
    on the template ends, with the same boolean and the same result (or the
    same failure to return), and adds no error of its own. *)
Theorem fresh_configuration_validates_like_template `{Externals}
    (fuel : nat) (h : Heap) (p : TemplatePtr) (T : UEnemyTemplate)
    (old : UEnemyConfiguration) (r r' : FEnemyTemplateValidationResult) :
  h !! p = Some T →
  ∃ cfg,
    InitializeFromTemplate h old (Some p) = Returns cfg ∧
    ValidateConfiguration fuel h cfg r = ValidateTemplate fuel h p r'.
Proof.
  intros Hp. eexists. split; [by apply InitializeFromTemplate_unfold|].
  unfold ValidateConfiguration. simpl.
  rewrite (ValidateTemplate_ignores_OutResult _ _ _ _ r').
  destruct (ValidateTemplate fuel h p r') as [[ok r0]| |] eqn:Hv; simpl; try done.
  apply ValidateTemplate_sound in Hv as [-> _].
  destruct (bIsValid r0) eqn:Hb; simpl; [|done].
  unfold deref. by rewrite Hp.
Qed.

Lemma fresh_configuration_validates_like_template_witness :
  ∃ cfg,
    InitializeFromTemplate Sample.heap_ghost
      (Sample.Configuration_of [("Damage", Float32.zero)] []) (Some 2%positive)
      = Returns cfg ∧
    ValidateConfiguration (H := Externals_by_name) 2 Sample.heap_ghost cfg
      FEnemyTemplateValidationResult_default
    = ValidateTemplate (H := Externals_by_name) 2 Sample.heap_ghost 2%positive
        Sample.GhostResult.
Proof.
  apply (fresh_configuration_validates_like_template (H := Externals_by_name)
           2 Sample.heap_ghost 2%positive Sample.Ghost).
  vm_compute. reflexivity.
Defined.

(** ** Stat multipliers: iteration order and the values that pass *)

Lemma stats_ext s s' : (∀ f, stat_read f s = stat_read f s') → s = s'.
Proof.
  intros Hall. destruct s, s'.
  pose proof (Hall StatHealth). pose proof (Hall StatDamage).
  pose proof (Hall StatSpeed). pose proof (Hall StatAttackSpeed).
  pose proof (Hall StatDefense). pose proof (Hall StatCriticalChance).
  pose proof (Hall StatCriticalMultiplier). simpl in *. congruence.
Qed.

Lemma multipliers_for_perm `{Externals} f (l l' : TMap FName Float32.t) :
  TMap_wf l →
  (∀ k k' v v' g, (k, v) ∈ l → (k', v') ∈ l →
                  GetStatValuePtr k = Some g → GetStatValuePtr k' = Some g → k = k') →
  l ≡ₚ l' →
  multipliers_for f l = multipliers_for f l'.
Proof.
  intros Hwf Hinj Hperm.
  destruct (multipliers_for f l) as [|v rest] eqn:Hl.
  - apply Permutation_nil_l. rewrite <- Hl.
    unfold multipliers_for. by rewrite Hperm.
  - assert (v ∈ multipliers_for f l) as Hv by (rewrite Hl; left).
    apply list_elem_of_omap in Hv as ([k v0] & Hin & Hres). simpl in Hres.
    case_decide as Hk; [|discriminate]. injection Hres as ->.
    rewrite <- Hl.
    rewrite (multipliers_for_single f l k v); [|done|done|done|by eauto].
    symmetry. apply (multipliers_for_single f l' k v); [|by rewrite <- Hperm|done|].
    + unfold TMap_wf. by rewrite <- Hperm.
    + intros k' v' Hin' Hk'. rewrite <- Hperm in Hin'. by eapply Hinj.
Qed.

(** X14. The effective stats do not depend on the order in which the
    multiplier map is walked, as long as the map has unique keys and no two
    of its keys resolve to the same stat field: each field is then
    multiplied at most once, and two maps with the same entries give the
    same stats. *)
Theorem ApplyToInstance_stats_order_independent `{Externals}
    (T : UEnemyTemplate) (Instance : ACharacter)
    (M M' : FEnemyTemplateModification) :
  TMap_wf (StatMultipliers M) →
  (∀ k k' v v' g,
     (k, v) ∈ StatMultipliers M → (k', v') ∈ StatMultipliers M →
     GetStatValuePtr k = Some g → GetStatValuePtr k' = Some g → k = k') →
  StatMultipliers M ≡ₚ StatMultipliers M' →
  FinalStats <$> ApplyToInstance T (Some Instance) (Some M) =
  FinalStats <$> ApplyToInstance T (Some Instance) (Some M').
Proof.
  intros Hwf Hinj Hperm. unfold ApplyToInstance. simpl. f_equal.
  apply stats_ext. intros f. rewrite !ApplyStatMultipliers_read.
  by rewrite (multipliers_for_perm f _ _ Hwf Hinj Hperm).
Qed.

Lemma ApplyToInstance_stats_order_independent_witness :
  FinalStats <$>
    ApplyToInstance (H := Externals_by_name) Sample.Goblin (Some Sample.Instance)
      (Some (Sample.Modification_of
               [("Damage", Float32.of_Z 3); ("Health", Float32_literal 1 3)] [])) =
  FinalStats <$>
    ApplyToInstance (H := Externals_by_name) Sample.Goblin (Some Sample.Instance)
      (Some (Sample.Modification_of
               [("Health", Float32_literal 1 3); ("Damage", Float32.of_Z 3)] [])).
Proof.
  apply (ApplyToInstance_stats_order_independent (H := Externals_by_name)).
  - vm_compute. apply (bool_decide_unpack _). vm_compute. exact I.
  - intros k k' v v' g Hk Hk'. simpl in Hk, Hk'.
    apply elem_of_cons in Hk as [[= -> ->]|Hk];
      [|apply list_elem_of_singleton in Hk as [= -> ->]];
      (apply elem_of_cons in Hk' as [[= -> ->]|Hk'];
       [|apply list_elem_of_singleton in Hk' as [= -> ->]]);
      vm_compute; intros; congruence.
  - simpl. apply perm_swap.
Defined.

(** X15. The multiplier check [Value <= 0.0f] lets through exactly the
    values greater than zero and NaN. A NaN multiplier therefore passes
    [ValidateConfiguration], and [ApplyToInstance] then turns the stat it
    names into NaN, whatever the base value. *)
Theorem NaN_multiplier_passes_and_poisons `{Externals}
    (T : UEnemyTemplate) (Instance : ACharacter) (M : FEnemyTemplateModification)
    (k : FName) (f : EStatField) :
  (∀ v, bad_multiplier (k, v) = false ↔
        v = S754_nan ∨ SFltb Float32.zero v = true) ∧
  (TMap_wf (StatMultipliers M) →
   (k, S754_nan) ∈ StatMultipliers M →
   GetStatValuePtr k = Some f →
   (∀ k' v', (k', v') ∈ StatMultipliers M → GetStatValuePtr k' = Some f → k' = k) →
   ∃ A, ApplyToInstance T (Some Instance) (Some M) = Some A ∧
        stat_read f (FinalStats A) = S754_nan).
Proof.
  split.
  - intros v. unfold bad_multiplier, Float32.leb, Float32.zero. simpl.
    destruct v as [s|s| |s m e]; try destruct s; vm_compute;
      split; try discriminate; try (intros [|]; discriminate); auto.
  - intros Hwf Hin Hk Honly. eexists. split; [reflexivity|]. simpl.
    rewrite ApplyStatMultipliers_read,
      (multipliers_for_single f _ k S754_nan) by done.
    simpl. unfold Float32.mul. by destruct (stat_read f (BaseStats T)).
Qed.

Lemma NaN_multiplier_passes_and_poisons_witness :
  bad_multiplier ("Health", S754_nan) = false ∧
  ValidateConfiguration (H := Externals_by_name) 1 Sample.heap_goblin
    (Sample.Configuration_of [("Health", S754_nan)] [])
    FEnemyTemplateValidationResult_default = Returns (true, MkResult true [] []) ∧
  ∃ A, ApplyToInstance (H := Externals_by_name) Sample.Goblin (Some Sample.Instance)
         (Some (Sample.Modification_of [("Health", S754_nan)] [])) = Some A ∧
       Health (FinalStats A) = S754_nan.
Proof.
  destruct (NaN_multiplier_passes_and_poisons (H := Externals_by_name) Sample.Goblin
              Sample.Instance (Sample.Modification_of [("Health", S754_nan)] [])
              "Health" StatHealth) as [Hpass Hpoison].
  split; [apply Hpass; by left|]. split; [vm_compute; reflexivity|].
  apply Hpoison.
  - vm_compute. apply (bool_decide_unpack _). vm_compute. exact I.
  - left.
  - reflexivity.
  - intros k' v' [= -> ->]%list_elem_of_singleton _. reflexivity.
Defined.

(** ** The creator tool *)

Lemma InitializeTemplateDefaults_fields `{EditorExternals} T EnemyType :
  let T' := InitializeTemplateDefaults T EnemyType in
  TemplateName T' = TemplateName T ∧
  DisplayName T' = DisplayName T ∧
  ParentTemplate T' = ParentTemplate T ∧
  Blackboard (AIConfig T') = Blackboard (AIConfig T) ∧
  BaseStats T' = DefaultBaseStats EnemyType ∧
  Abilities T' = LoadDefaultAbilities EnemyType.
Proof. by destruct EnemyType. Qed.

(** X16. [CreateNewEnemyTemplate] never hands out a template. The template
    it builds gets its mesh, animation blueprint, behaviour tree and ability
    assets from the loader, but nothing ever sets its blackboard, so
    validation fails whatever the name, the enemy type and the loader are:
    the method returns [nullptr], and the errors it logs are the name error
    (for an empty name) followed by exactly one of the mesh, behaviour tree
    and blackboard errors. *)
Theorem CreateNewEnemyTemplate_returns_null `{Externals} `{EditorExternals}
    (fuel : nat) (New : TemplatePtr) (h : Heap) (Name : string)
    (EnemyType : EEnemyType) :
  ∃ h' e,
    CreateNewEnemyTemplate (S fuel) New h Name EnemyType =
      Returns (None, h',
               (if FName_IsNone (FName_of_string Name) then [Msg.NoTemplateName] else [])
                 ++ [e]) ∧
    (e = Msg.NoSkeletalMesh ∨ e = Msg.NoBehaviorTree ∨ e = Msg.NoBlackboard) ∧
    CreateNewEnemyTemplate 0 New h Name EnemyType = OutOfFuel.
Proof.
  unfold CreateNewEnemyTemplate.
  set (T0 := MkTemplate _ _ _ _ _ _ _ _ _ _ _).
  destruct (InitializeTemplateDefaults_fields T0 EnemyType)
    as (Hname & _ & Hparent & Hbb & _).
  set (T' := InitializeTemplateDefaults T0 EnemyType) in *.
  clearbody T'. simpl in Hname, Hparent, Hbb.
  rewrite ValidateTemplate_S. unfold deref. rewrite lookup_insert_eq. simpl.
  rewrite Hparent. simpl. rewrite ValidateIdentity_anatomy, ValidateLocal_anatomy.
  assert (Hloc : ∃ e, local_errors T' = [e] ∧
            (e = Msg.NoSkeletalMesh ∨ e = Msg.NoBehaviorTree ∨ e = Msg.NoBlackboard)).
  { unfold local_errors. rewrite Hbb. simpl.
    destruct (IsValid (SkeletalMesh _)); simpl; [|eauto].
    destruct (IsValid (BehaviorTree _)); simpl; eauto. }
  destruct Hloc as (e & Hloc & He). rewrite Hloc. simpl.
  rewrite andb_false_r. simpl. exists (<[New := T']> h), e.
  split; [|done]. unfold identity_errors. by rewrite Hname.
Qed.

(** X17. The abilities [LoadDefaultAbilities] gives a template have
    pairwise distinct names, none of them [None], with "BasicAttack" first,
    whatever the enemy type and whatever the loader finds; so each can be
    addressed by a modification key, and the only error the ability check
    can raise on them is a missing class. *)
Theorem LoadDefaultAbilities_names `{Externals} `{EditorExternals}
    (EnemyType : EEnemyType) (T : UEnemyTemplate) :
  NoDup (AbilityName <$> LoadDefaultAbilities EnemyType) ∧
  Forall (λ Ability, FName_IsNone (AbilityName Ability) = false)
    (LoadDefaultAbilities EnemyType) ∧
  AbilityName <$> head (LoadDefaultAbilities EnemyType) = Some "BasicAttack" ∧
  (∀ Ability,
     Ability ∈ LoadDefaultAbilities EnemyType →
     ability_errors T Ability =
       if IsValid (AbilityClass Ability) then []
       else [AbilityClassError (AbilityName Ability)]).
Proof.
  assert (Hnames : AbilityName <$> LoadDefaultAbilities EnemyType
                   = AbilityName <$> DefaultAbilityList EnemyType).
  { unfold LoadDefaultAbilities.
    change (map (LoadAbilityAssets EnemyType) (DefaultAbilityList EnemyType))
      with (LoadAbilityAssets EnemyType <$> DefaultAbilityList EnemyType).
    rewrite <- list_fmap_compose. by apply list_fmap_ext. }
  assert (Hnone : Forall (λ Ability, FName_IsNone (AbilityName Ability) = false)
                    (LoadDefaultAbilities EnemyType)).
  { apply Forall_forall. intros Ability Hin.
    assert (AbilityName Ability ∈ AbilityName <$> LoadDefaultAbilities EnemyType)
      as Hn by (apply list_elem_of_fmap; eauto).
    rewrite Hnames in Hn. revert Hn. generalize (AbilityName Ability). intros n.
    destruct EnemyType; vm_compute;
      repeat (intros [->|Hn]%elem_of_cons; [reflexivity|revert Hn]);
      by intros ?%elem_of_nil. }
  split; [|split; [done|split]].
  - rewrite Hnames.
    destruct EnemyType; vm_compute; apply (bool_decide_unpack _); vm_compute; exact I.
  - by destruct EnemyType.
  - intros Ability Hin. unfold ability_errors.
    rewrite Forall_forall in Hnone. rewrite (Hnone Ability Hin). simpl.
    by destruct (IsValid (AbilityClass Ability)).
Qed.

(** X18. If [UEnum::GetValueAsString] answers with the qualified name, as the
    comment at [RightChop (11)] expects ("EEnemyType::Melee"), then chopping
    eleven characters leaves one colon in place: the type string is
    ":Melee" rather than "Melee", and every asset path is built with it
    ("/Game/Enemies/:Melee/SK_:Melee"). The prefix has twelve characters. *)
Theorem TypeString_keeps_a_colon `{EditorExternals} :
  (∀ EnemyType,
     UEnum_GetValueAsString EnemyType
       = ("EEnemyType::" ++ EEnemyType_name EnemyType)%string) →
  ∀ EnemyType,
    TypeString EnemyType = (":" ++ EEnemyType_name EnemyType)%string ∧
    TypeString EnemyType ≠ EEnemyType_name EnemyType ∧
    String.length "EEnemyType::" = 12.
Proof.
  intros Hname EnemyType. unfold TypeString. rewrite Hname.
  by destruct EnemyType.
Qed.

Lemma TypeString_keeps_a_colon_witness :
  TypeString (H := Editor_nothing_loads) Boss = ":Boss" ∧
  TypeString (H := Editor_nothing_loads) Boss ≠ EEnemyType_name Boss ∧
  String.length "EEnemyType::" = 12.
Proof.
  apply (TypeString_keeps_a_colon (H := Editor_nothing_loads)). reflexivity.
Defined.

(** ** The preview actor *)

(** X19. [SetBehaviorTree] then [GetBehaviorTree] gives back the tree that
    was set, null included. Setting the tree the actor already holds
    changes nothing and calls nothing; otherwise an actor with an AI
    controller gets exactly one call, [RunBehaviorTree] on the new tree or
    [StopTree] when the new tree is null, and an actor without one gets
    none. Setting the same tree a second time is always silent. *)
Theorem SetBehaviorTree_spec (Actor : AEnemyPreviewActor) (NewBT : option Asset) :
  GetBehaviorTree (SetBehaviorTree Actor NewBT).1 = NewBT ∧
  HasAIController (SetBehaviorTree Actor NewBT).1 = HasAIController Actor ∧
  (NewBT = CurrentBehaviorTree Actor → SetBehaviorTree Actor NewBT = (Actor, [])) ∧
  (NewBT ≠ CurrentBehaviorTree Actor →
   (SetBehaviorTree Actor NewBT).2 =
     if HasAIController Actor
     then [match NewBT with Some BT => RunBehaviorTree BT | None => StopTree end]
     else []) ∧
  SetBehaviorTree (SetBehaviorTree Actor NewBT).1 NewBT
    = ((SetBehaviorTree Actor NewBT).1, []).
Proof.
  unfold SetBehaviorTree, GetBehaviorTree.
  destruct Actor as [Cur Ctl]. simpl.
  case_bool_decide as Hne; simpl.
  - destruct Ctl, NewBT; simpl; rewrite ?bool_decide_eq_false_2 by naive_solver;
      repeat split; try done; by intros ?.
  - subst. rewrite bool_decide_eq_false_2 by naive_solver.
    repeat split; done.
Qed.

Lemma SetBehaviorTree_spec_witness :
  SetBehaviorTree (MkPreviewActor (Some "BT_Patrol") true) None
    = (MkPreviewActor None true, [StopTree]) ∧
  SetBehaviorTree (MkPreviewActor (Some "BT_Patrol") true) (Some "BT_Patrol")
    = (MkPreviewActor (Some "BT_Patrol") true, []).
Proof.
  destruct (SetBehaviorTree_spec (MkPreviewActor (Some "BT_Patrol") true) None)
    as (_ & _ & _ & Hcalls & _).
  destruct (SetBehaviorTree_spec (MkPreviewActor (Some "BT_Patrol") true)
              (Some "BT_Patrol")) as (_ & _ & Hsame & _).
  split.
  - specialize (Hcalls ltac:(discriminate)).
    by destruct (SetBehaviorTree (MkPreviewActor (Some "BT_Patrol") true) None)
      as [a c] eqn:E; vm_compute in E; injection E as <- <-.
  - by apply Hsame.
Defined.

(** X20. [OnBehaviorTreeGenerated] with a tree and a preview actor leaves
    the actor holding the generated tree; on an actor with an AI controller
    the tree is started twice when it differs from the one held (once by
    [SetBehaviorTree], once by [SimulateAIBehavior]) and once when it is the
    same. With a null tree or without a preview actor nothing changes and
    nothing is called. *)
Theorem OnBehaviorTreeGenerated_spec
    (PreviewActor : option AEnemyPreviewActor) (GeneratedBT : option Asset) :
  (∀ Actor BT,
     PreviewActor = Some Actor → GeneratedBT = Some BT →
     ∃ Actor',
       (OnBehaviorTreeGenerated PreviewActor GeneratedBT).1 = Some Actor' ∧
       GetBehaviorTree Actor' = Some BT ∧
       (OnBehaviorTreeGenerated PreviewActor GeneratedBT).2 =
         if HasAIController Actor then
           if bool_decide (Some BT = CurrentBehaviorTree Actor)
           then [RunBehaviorTree BT]
           else [RunBehaviorTree BT; RunBehaviorTree BT]
         else []) ∧
  (PreviewActor = None ∨ GeneratedBT = None →
   OnBehaviorTreeGenerated PreviewActor GeneratedBT = (PreviewActor, [])).
Proof.
  split.
  - intros [Cur Ctl] BT -> ->. unfold OnBehaviorTreeGenerated, SetBehaviorTree. simpl.
    case_bool_decide as Hne; simpl.
    + rewrite bool_decide_eq_false_2 by done.
      destruct Ctl; simpl; eexists; split; try reflexivity; done.
    + rewrite bool_decide_eq_true_2 by done.
      subst. destruct Ctl; simpl; eexists; split; try reflexivity; done.
  - intros [->| ->]; [by destruct GeneratedBT | by destruct PreviewActor].
Qed.

Lemma OnBehaviorTreeGenerated_spec_witness :
  ∃ Actor',
    (OnBehaviorTreeGenerated (Some (MkPreviewActor None true)) (Some "BT_New")).1
      = Some Actor' ∧
    GetBehaviorTree Actor' = Some "BT_New" ∧
    (OnBehaviorTreeGenerated (Some (MkPreviewActor None true)) (Some "BT_New")).2
      = [RunBehaviorTree "BT_New"; RunBehaviorTree "BT_New"].
Proof.
  apply (proj1 (OnBehaviorTreeGenerated_spec (Some (MkPreviewActor None true))
                  (Some "BT_New")) (MkPreviewActor None true) "BT_New");
    reflexivity.
Defined.

Lemma LoadDefaultAbilities_names_witness :
  NoDup (AbilityName <$> LoadDefaultAbilities (H := Editor_nothing_loads) Boss) ∧
  ability_errors (H := Externals_by_name) Sample.Goblin
    (LoadAbilityAssets (H := Editor_nothing_loads) Boss
       (MakeAbility "Phase2" "Phase2" "Phase 2 Ultimate" "Phase2Desc"
          "Second phase special ability" 60 1000))
  = [AbilityClassError "Phase2"].
Proof.
  destruct (LoadDefaultAbilities_names (H := Externals_by_name)
              (H0 := Editor_nothing_loads) Boss Sample.Goblin)
    as (Hnd & _ & _ & Herr).
  split; [exact Hnd|].
  apply (Herr (LoadAbilityAssets (H := Editor_nothing_loads) Boss
                 (MakeAbility "Phase2" "Phase2" "Phase 2 Ultimate" "Phase2Desc"
                    "Second phase special ability" 60 1000))).
  right. right. left.
Defined.

(** ** The chain of a template whose ancestry is a line *)

Lemma parent_chain_ends_functional h a n m :
  parent_chain_ends h a n → parent_chain_ends h a m → n = m.
Proof.
  intros Hn. revert m. induction Hn as [a T Ha Hp | a T p n Ha Hp _ IH];
    intros m Hm; inversion Hm as [a' T' Ha' Hp' | a' T' p' m' Ha' Hp' Hm'];
    subst; try congruence.
  f_equal. apply IH. congruence.
Qed.

Lemma InheritanceChain_loop_on_line h c n :
  parent_chain_ends h c n →
  ∀ Chain,
    (∀ x, x ∈ Chain → ∃ m, n < m ∧ parent_chain_ends h x m) →
    ∃ path root R,
      InheritanceChain_loop (S n) h Chain (Some c) = Returns (Chain ++ path) ∧
      length path = S n ∧ head path = Some c ∧
      last path = Some root ∧ h !! root = Some R ∧ ParentTemplate R = None.
Proof.
  induction 1 as [c T Hc Hp | c T p n Hc Hp Hends IH]; intros Chain Hdeeper.
  - exists [c], c, T. simpl. unfold deref. rewrite Hc. simpl. by rewrite Hp.
  - destruct (IH (Chain ++ [c])) as (path & root & R & Hloop & Hlen & Hhead & Hlast & HR).
    { intros x [Hx| ->%list_elem_of_singleton]%elem_of_app.
      - destruct (Hdeeper x Hx) as (m & Hm & Hxm). exists m. split; [lia|done].
      - exists (S n). split; [lia|]. by eapply chain_step. }
    exists (c :: path), root, R.
    split; [|split; [simpl; lia|split; [done|split; [|done]]]].
    + change (InheritanceChain_loop (S (S n)) h Chain (Some c))
        with (T ← deref h c;
              if Chain_Contains (Chain ++ [c]) (ParentTemplate T)
              then Returns (Chain ++ [c])
              else InheritanceChain_loop (S n) h (Chain ++ [c]) (ParentTemplate T)).
      unfold deref. rewrite Hc. cbn -[InheritanceChain_loop Chain_Contains].
      rewrite Hp. unfold Chain_Contains.
      rewrite bool_decide_eq_false_2.
      * rewrite Hloop. by rewrite <- app_assoc.
      * intros [Hx|Hx%list_elem_of_singleton]%elem_of_app.
        -- destruct (Hdeeper p Hx) as (m & Hm & Hpm).
           pose proof (parent_chain_ends_functional _ _ _ _ Hends Hpm). lia.
        -- pose proof (chain_step h c T p n Hc Hp Hends) as Hself.
           rewrite <- Hx in Hself.
           pose proof (parent_chain_ends_functional _ _ _ _ Hends Hself). lia.
    + destruct path as [|y path]; [discriminate|]. done.
Qed.

(** X21. When the parent chain of a template reaches a root after [n]
    steps, the first [GetInheritanceChain] returns a chain of exactly
    [n + 1] templates that starts with the template and ends at that root,
    in [n + 1] iterations: the same number of steps at which
    [ValidateTemplate] returns on it. *)
Theorem GetInheritanceChain_on_line_ends_at_root
    (h : Heap) (this : TemplatePtr) (T : UEnemyTemplate) (n : nat) :
  h !! this = Some T →
  bNeedsInheritanceChainUpdate T = true →
  parent_chain_ends h this n →
  ∃ Chain h' root R,
    GetInheritanceChain (S n) h this = Returns (Chain, h') ∧
    length Chain = S n ∧
    head Chain = Some this ∧
    last Chain = Some root ∧ h !! root = Some R ∧ ParentTemplate R = None.
Proof.
  intros Hthis Hdirty Hends.
  destruct (InheritanceChain_loop_on_line h this n Hends [])
    as (path & root & R & Hloop & Hlen & Hhead & Hlast & HR);
    [by intros x ?%elem_of_nil|].
  exists path, (<[this := MkTemplate (TemplateName T) (DisplayName T) (Description T)
                            (ParentTemplate T) (TemplateTags T) (BaseStats T)
                            (AIConfig T) (VisualCustomization T) (Abilities T)
                            path false]> h), root, R.
  split; [|done].
  unfold GetInheritanceChain, deref. rewrite Hthis.
  cbn -[InheritanceChain_loop]. rewrite Hdirty, Hloop. done.
Qed.

Lemma GetInheritanceChain_on_line_ends_at_root_witness :
  ∃ Chain h' root R,
    GetInheritanceChain 3 Sample.heap_line 3%positive = Returns (Chain, h') ∧
    length Chain = 3 ∧
    head Chain = Some 3%positive ∧
    last Chain = Some root ∧ Sample.heap_line !! root = Some R ∧
    ParentTemplate R = None.
Proof.
  apply (GetInheritanceChain_on_line_ends_at_root Sample.heap_line 3%positive
           (Sample.with_parent Sample.Goblin (Some 2%positive)) 2).
  - vm_compute. reflexivity.
  - reflexivity.
  - exact heap_line_ends.
Defined.
